(** * Design review assistant: property extraction, token resolution, comparison

    A shallow embedding of the core of [src/index.py] (the batch driver) and
    [src/app.py] (the web endpoint): [parse_property_value], [parse_jsx_props],
    [map_css_property_name], [resolve_tokens] and [compare_components], with
    the fragment of Python they run on.

    Conventions of the model.
    - A Python [str] is a [string]; the model is exact for ASCII text.
      Python's Unicode-aware classes ([str.isdigit], [str.strip], the
      regular-expression classes [\w] and [\s]) are taken at their ASCII
      members.
    - A Python [int] is a [Z].  [int()] on a string refuses more than
      [int_max_str_digits] digits, the interpreter's default limit of 4300.
    - JSON numbers with a fraction (Python [float]) are not part of [value].
    - A Python [dict] is an association list in insertion order; [dict_set]
      keeps keys unique the way item assignment does.
    - An exception is a value [Raise e] of the [result] type. *)

From Stdlib Require Import String Ascii List ZArith Bool Lia Arith.
From Stdlib Require Import DecimalString DecimalNat.
Import ListNotations.
Open Scope string_scope.
Open Scope Z_scope.

Set Warnings "-register-all".

(** ** Exceptions and results *)

Inductive exn := ValueError | TypeError | KeyError.

Inductive result (A : Type) :=
| Ok (a : A)
| Raise (e : exn).

Arguments Ok {A} a.
Arguments Raise {A} e.

Definition bind {A B : Type} (m : result A) (f : A -> result B) : result B :=
  match m with
  | Ok a => f a
  | Raise e => Raise e
  end.

Notation "x <- m ;; k" := (bind m (fun x => k))
  (at level 61, m at next level, right associativity).

(** ** Python values, as [json.loads] and the core produce them *)

Inductive value :=
| VNone
| VBool (b : bool)
| VInt (z : Z)
| VStr (s : string)
| VList (l : list value)
| VDict (d : list (string * value)).

Definition dict := list (string * value).

(** [d.get(k)] with the absent case left to the caller. *)
Fixpoint dict_get (k : string) (d : dict) : option value :=
  match d with
  | [] => None
  | (k', v) :: d' => if String.eqb k k' then Some v else dict_get k d'
  end.

(** [d.get(k)], [None] when absent. *)
Definition dict_get_none (k : string) (d : dict) : value :=
  match dict_get k d with
  | Some v => v
  | None => VNone
  end.

(** [k in d]. *)
Definition dict_mem (k : string) (d : dict) : bool :=
  match dict_get k d with
  | Some _ => true
  | None => false
  end.

(** [d[k] = v]: overwrite in place, or append a new key. *)
Fixpoint dict_set (k : string) (v : value) (d : dict) : dict :=
  match d with
  | [] => [(k, v)]
  | (k', v') :: d' =>
      if String.eqb k k' then (k', v) :: d' else (k', v') :: dict_set k v d'
  end.

(** Truth value of an object in a condition ([if x], [not x], [x and y]). *)
Definition truthy (v : value) : bool :=
  match v with
  | VNone => false
  | VBool b => b
  | VInt z => negb (z =? 0)
  | VStr s => negb (String.eqb s "")
  | VList l => match l with [] => false | _ => true end
  | VDict d => match d with [] => false | _ => true end
  end.

(** [a == b].  [bool] is a subclass of [int], lists compare element-wise,
    dicts as mappings. *)
Fixpoint py_eq (a b : value) {struct a} : bool :=
  match a, b with
  | VNone, VNone => true
  | VBool x, VBool y => Bool.eqb x y
  | VBool x, VInt y => Z.b2z x =? y
  | VInt x, VBool y => x =? Z.b2z y
  | VInt x, VInt y => x =? y
  | VStr x, VStr y => String.eqb x y
  | VList xs, VList ys =>
      (fix go (xs ys : list value) {struct xs} : bool :=
         match xs, ys with
         | [], [] => true
         | x :: xs', y :: ys' => py_eq x y && go xs' ys'
         | _, _ => false
         end) xs ys
  | VDict d1, VDict d2 =>
      (Nat.eqb (length d1) (length d2) &&
       (fix go (d : list (string * value)) {struct d} : bool :=
          match d with
          | [] => true
          | (k, v) :: d' =>
              match dict_get k d2 with
              | Some v' => py_eq v v' && go d'
              | None => false
              end
          end) d1)%bool
  | _, _ => false
  end.

(** [v in tokens] for a dictionary with string keys; a list or a dict is not
    hashable and the test raises [TypeError]. *)
Definition in_tokens (v : value) (tokens : dict) : result bool :=
  match v with
  | VStr s => Ok (dict_mem s tokens)
  | VList _ | VDict _ => Raise TypeError
  | _ => Ok false
  end.

(** [tokens[v]], after [v in tokens] held. *)
Definition tokens_at (v : value) (tokens : dict) : result value :=
  match v with
  | VStr s => match dict_get s tokens with
              | Some r => Ok r
              | None => Raise KeyError
              end
  | VList _ | VDict _ => Raise TypeError
  | _ => Raise KeyError
  end.

(** ** Python string methods *)

Fixpoint startswith (p s : string) : bool :=
  match p, s with
  | EmptyString, _ => true
  | String a p', String b s' => (Ascii.eqb a b && startswith p' s')%bool
  | String _ _, EmptyString => false
  end.

(** [s.endswith(p)] for a non-empty [p]: some suffix of [s] is [p]. *)
Fixpoint endswith (p s : string) : bool :=
  match s with
  | EmptyString => String.eqb p ""
  | String _ s' => (String.eqb p s || endswith p s')%bool
  end.

(** [c in s] for a one-character [c]. *)
Fixpoint has_char (c : ascii) (s : string) : bool :=
  match s with
  | EmptyString => false
  | String a s' => (Ascii.eqb a c || has_char c s')%bool
  end.

(** [p in s]: substring test. *)
Fixpoint contains (p s : string) : bool :=
  match s with
  | EmptyString => startswith p ""
  | String _ s' => (startswith p s || contains p s')%bool
  end.

(** [s.replace(old, new)] for a non-empty [old]: occurrences are replaced
    left to right without overlap; [skip] counts the characters of the
    occurrence just replaced that are still to be passed over. *)
Fixpoint replace_from (old new s : string) (skip : nat) : string :=
  match s with
  | EmptyString => EmptyString
  | String c s' =>
      match skip with
      | S n => replace_from old new s' n
      | O =>
          if startswith old s
          then new ++ replace_from old new s' (String.length old - 1)
          else String c (replace_from old new s' 0)
      end
  end.

Definition replace (old new s : string) : string := replace_from old new s 0.

Definition is_digit (c : ascii) : bool :=
  let n := nat_of_ascii c in (Nat.leb 48 n && Nat.leb n 57)%bool.

Definition is_space (c : ascii) : bool :=
  let n := nat_of_ascii c in
  ((Nat.leb 9 n && Nat.leb n 13) || Nat.eqb n 32
   || (Nat.leb 28 n && Nat.leb n 31))%bool.

(** The white space [int()] skips around a literal. *)
Definition is_int_space (c : ascii) : bool :=
  let n := nat_of_ascii c in
  ((Nat.leb 9 n && Nat.leb n 13) || Nat.eqb n 32)%bool.

Definition is_alpha (c : ascii) : bool :=
  let n := nat_of_ascii c in
  ((Nat.leb 65 n && Nat.leb n 90) || (Nat.leb 97 n && Nat.leb n 122))%bool.

(** The class [\w]. *)
Definition is_word (c : ascii) : bool :=
  (is_alpha c || is_digit c || Ascii.eqb c "_")%bool.

Fixpoint all_chars (p : ascii -> bool) (s : string) : bool :=
  match s with
  | EmptyString => true
  | String c s' => (p c && all_chars p s')%bool
  end.

(** [s.isdigit()]: non-empty and digits only. *)
Definition isdigit (s : string) : bool :=
  match s with
  | EmptyString => false
  | _ => all_chars is_digit s
  end.

Fixpoint lstrip_by (p : ascii -> bool) (s : string) : string :=
  match s with
  | EmptyString => EmptyString
  | String c s' => if p c then lstrip_by p s' else s
  end.

Fixpoint rstrip_by (p : ascii -> bool) (s : string) : string :=
  match s with
  | EmptyString => EmptyString
  | String c s' =>
      match rstrip_by p s' with
      | EmptyString => if p c then EmptyString else String c EmptyString
      | r => String c r
      end
  end.

Definition strip_by (p : ascii -> bool) (s : string) : string :=
  rstrip_by p (lstrip_by p s).

(** [s.strip()]. *)
Definition strip (s : string) : string := strip_by is_space s.

(** [s.strip(chars)]. *)
Definition strip_chars (chars s : string) : string :=
  strip_by (fun c => has_char c chars) s.

(** *** [int(s)] on a string, base ten

    Leading white space, an optional sign, digits with single underscores
    between them, trailing white space; a literal of more than
    [int_max_str_digits] digits is refused. *)

(** [sys.int_info.default_max_str_digits], which the program leaves as it
    is. *)
Definition int_max_str_digits : nat := 4300.

Fixpoint count_chars (p : ascii -> bool) (s : string) : nat :=
  match s with
  | EmptyString => O
  | String c s' => if p c then S (count_chars p s') else count_chars p s'
  end.

Definition digit_val (c : ascii) : Z := Z.of_nat (nat_of_ascii c) - 48.

(** Scan the digits and underscores; [prev_us] tells whether the previous
    character was an underscore, [acc] is the value read so far.  Returns the
    value and the unread rest, or [None] on a misplaced underscore. *)
Fixpoint scan_digits (s : string) (prev_us : bool) (acc : Z)
  : option (Z * string) :=
  match s with
  | EmptyString => if prev_us then None else Some (acc, EmptyString)
  | String c s' =>
      if is_digit c then scan_digits s' false (10 * acc + digit_val c)
      else if Ascii.eqb c "_"
           then if prev_us then None else scan_digits s' true acc
           else if prev_us then None else Some (acc, s)
  end.

Definition int_unsigned (s : string) : option Z :=
  match s with
  | String c _ =>
      if is_digit c
      then match scan_digits s false 0 with
           | Some (n, rest) =>
               if (all_chars is_int_space rest
                   && Nat.leb (count_chars is_digit s) int_max_str_digits)%bool
               then Some n
               else None
           | None => None
           end
      else None
  | EmptyString => None
  end.

Definition py_int (s : string) : result Z :=
  let body := lstrip_by is_int_space s in
  let r := match body with
           | String "+" t => int_unsigned t
           | String "-" t => option_map Z.opp (int_unsigned t)
           | _ => int_unsigned body
           end in
  match r with
  | Some n => Ok n
  | None => Raise ValueError
  end.

(** ** Regular expressions

    The fragment of [re] the patterns of the program use: literals, greedy
    repetition of a character class, a greedy optional part, capturing groups
    and concatenation.  [matches r s] lists the ways [r] matches a prefix of
    [s], in the order a backtracking matcher tries them; each is the unread
    rest with the captured groups. *)

Inductive regex :=
| Lit (l : string)
| Star (p : ascii -> bool)
| Plus (p : ascii -> bool)
| Opt (r : regex)
| Group (r : regex)
| Seq (r1 r2 : regex).

Fixpoint drop (n : nat) (s : string) : string :=
  match n, s with
  | O, _ => s
  | S n', String _ s' => drop n' s'
  | S _, EmptyString => EmptyString
  end.

(** The rests after [p*], longest repetition first. *)
Fixpoint star_rests (p : ascii -> bool) (s : string) : list string :=
  match s with
  | EmptyString => [EmptyString]
  | String c s' => if p c then (star_rests p s' ++ [s])%list else [s]
  end.

(** The text between the start of [s] and its suffix [rest]. *)
Definition consumed (s rest : string) : string :=
  substring 0 (String.length s - String.length rest) s.

Fixpoint matches (r : regex) (s : string) : list (string * list string) :=
  match r with
  | Lit l => if startswith l s then [(drop (String.length l) s, [])] else []
  | Star p => map (fun rest => (rest, [])) (star_rests p s)
  | Plus p =>
      match s with
      | String c s' =>
          if p c then map (fun rest => (rest, [])) (star_rests p s') else []
      | EmptyString => []
      end
  | Opt r' => (matches r' s ++ [(s, [])])%list
  | Group r' =>
      map (fun m : string * list string =>
             (fst m, consumed s (fst m) :: snd m))
          (matches r' s)
  | Seq r1 r2 =>
      flat_map (fun m1 : string * list string =>
                  map (fun m2 : string * list string =>
                         (fst m2, (snd m1 ++ snd m2)%list))
                      (matches r2 (fst m1)))
               (matches r1 s)
  end.

(** The match at the start of [s] the matcher settles on. *)
Definition match_at (r : regex) (s : string) : option (string * list string) :=
  hd_error (matches r s).

(** [re.search(r, s)]: the leftmost match, as its groups. *)
Fixpoint search (r : regex) (s : string) : option (list string) :=
  match match_at r s with
  | Some m => Some (snd m)
  | None =>
      match s with
      | EmptyString => None
      | String _ s' => search r s'
      end
  end.

(** [re.findall(r, s)]: the groups of the successive matches, left to right
    without overlap; [skip] counts the characters of the last match still to
    be passed over. *)
Fixpoint findall_from (r : regex) (s : string) (skip : nat)
  : list (list string) :=
  match s with
  | EmptyString =>
      match match_at r s with
      | Some m => [snd m]
      | None => []
      end
  | String _ s' =>
      match skip with
      | S n => findall_from r s' n
      | O =>
          match match_at r s with
          | Some m =>
              snd m :: findall_from r s'
                         (String.length s - String.length (fst m) - 1)
          | None => findall_from r s' 0
          end
      end
  end.

Definition findall (r : regex) (s : string) : list (list string) :=
  findall_from r s 0.

(** [m.group(1)]. *)
Definition group1 (m : list string) : string := hd EmptyString m.

(** [re.search(pattern, value)] on an arbitrary object: anything but a
    string is a [TypeError]. *)
Definition re_search (r : regex) (v : value) : result (option (list string)) :=
  match v with
  | VStr s => Ok (search r s)
  | _ => Raise TypeError
  end.

Definition not_char (cs : string) (c : ascii) : bool := negb (has_char c cs).

(** ['var\(--(?:color-)?([^)]+)\)'] *)
Definition css_var_pattern : regex :=
  Seq (Lit "var(--")
      (Seq (Opt (Lit "color-")) (Seq (Group (Plus (not_char ")"))) (Lit ")"))).

(** The double quote character, and the one-character string of it. *)
Definition dquote : ascii := "034"%char.
Definition dq : string := String dquote EmptyString.

(** [(\w+)=Q([^Q]+)Q] where Q stands for the double quote. *)
Definition prop_pattern : regex :=
  Seq (Group (Plus is_word))
      (Seq (Lit (String "=" dq))
           (Seq (Group (Plus (not_char dq))) (Lit dq))).

(** ['style=\{\{([^}]+)\}\}'] *)
Definition style_object_pattern : regex :=
  Seq (Lit "style={{") (Seq (Group (Plus (not_char "}"))) (Lit "}}")).

(** ['(\w+):\s*([^,}]+)'] *)
Definition css_prop_pattern : regex :=
  Seq (Group (Plus is_word))
      (Seq (Lit ":") (Seq (Star is_space) (Group (Plus (not_char ",}"))))).

(** ** Issues *)

(** A piece of an f-string: literal text, or an interpolated object (its
    rendering by [str()] is left out of the model). *)
Inductive fragment :=
| Text (s : string)
| Interp (v : value).

Record issue := mk_issue {
  severity : string;
  property : string;
  figma : dict;
  pr : dict;
  recommendation : list fragment;
  category : string
}.

(** [x is True]. *)
Definition is_True (v : value) : bool :=
  match v with
  | VBool true => true
  | _ => false
  end.

(** [x is not None]. *)
Definition is_not_None (v : value) : bool :=
  match v with
  | VNone => false
  | _ => true
  end.

(** [d[k]]. *)
Definition dict_at (k : string) (d : dict) : result value :=
  match dict_get k d with
  | Some v => Ok v
  | None => Raise KeyError
  end.

(** [abs(a - b)] on integers ([bool] included); a [TypeError] on the other
    objects of the model. *)
Definition as_int (v : value) : result Z :=
  match v with
  | VInt z => Ok z
  | VBool b => Ok (Z.b2z b)
  | _ => Raise TypeError
  end.

Definition abs_sub (a b : value) : result Z :=
  x <- as_int a ;;
  y <- as_int b ;;
  Ok (Z.abs (x - y)).

(** Aggregate counts by severity. *)
Record summary := mk_summary {
  major : nat;
  minor : nat;
  warnings : nat
}.

(** [for key, value in matches]: unpacking the groups of a two-group match. *)
Definition unpack2 (m : list string) : result (string * string) :=
  match m with
  | [a; b] => Ok (a, b)
  | _ => Raise ValueError
  end.

(** ** [src/index.py] *)

Module Index.

Definition parse_property_value (value : value) : result dict :=
  css_var_match <- re_search css_var_pattern value ;;
  match css_var_match with
  | Some m =>
      let token_name := group1 m in
      Ok [("token", VStr token_name); ("value", VStr token_name)]
  | None =>
      match value with
      | VStr s =>
          if endswith "px" s then
            if has_char " " s then Ok [("value", value)]
            else
              match py_int (replace "px" "" s) with
              | Ok n => Ok [("value", value); ("normalized", VInt n)]
              | Raise ValueError => Ok [("value", value)]
              | Raise e => Raise e
              end
          else if endswith "%" s then
            Ok [("value", value); ("type", VStr "percentage")]
          else if isdigit s then
            n <- py_int s ;;
            Ok [("value", value); ("normalized", VInt n)]
          else if (has_char "-" s && negb (startswith "var(" s))%bool then
            Ok [("token", value); ("value", value)]
          else Ok [("value", value)]
      | _ => Ok [("value", value)]
      end
  end.

Definition map_css_property_name (css_prop : string) : string :=
  let mapping :=
    [("color", VStr "textColor");
     ("background", VStr "backgroundColor");
     ("backgroundColor", VStr "backgroundColor");
     ("fontSize", VStr "fontSize");
     ("fontWeight", VStr "fontWeight");
     ("fontFamily", VStr "fontFamily");
     ("borderRadius", VStr "borderRadius");
     ("padding", VStr "padding");
     ("lineHeight", VStr "lineHeight")] in
  match dict_get css_prop mapping with
  | Some (VStr name) => name
  | _ => css_prop
  end.

(** The first loop of [parse_jsx_props], over the attribute matches. *)
Fixpoint attr_loop (matches : list (list string)) (props : dict)
  : result dict :=
  match matches with
  | [] => Ok props
  | m :: rest =>
      kv <- unpack2 m ;;
      let (key, value) := kv in
      if String.eqb key "style" then attr_loop rest props
      else
        d <- parse_property_value (VStr value) ;;
        attr_loop rest (dict_set key (VDict d) props)
  end.

(** The second loop of [parse_jsx_props], over the entries of the style
    block. *)
Fixpoint css_loop (css_matches : list (list string)) (props : dict)
  : result dict :=
  match css_matches with
  | [] => Ok props
  | m :: rest =>
      kv <- unpack2 m ;;
      let (css_key, css_value) := kv in
      let clean_value := strip_chars (dq ++ "'") (strip css_value) in
      let prop_name := map_css_property_name css_key in
      d <- parse_property_value (VStr clean_value) ;;
      css_loop rest (dict_set prop_name (VDict d) props)
  end.

Definition parse_jsx_props (jsx_content : string) : result dict :=
  let matches := findall prop_pattern jsx_content in
  props <- attr_loop matches [] ;;
  let style_match := search style_object_pattern jsx_content in
  match style_match with
  | Some m =>
      let style_content := group1 m in
      let css_matches := findall css_prop_pattern style_content in
      css_loop css_matches props
  | None => Ok props
  end.

(** The body of the loop of [resolve_tokens]: the descriptor stored under
    the key of [prop]. *)
Definition resolve_prop (prop : value) (tokens : dict) : result dict :=
  match prop with
  | VDict p =>
      let resolved_key := p in
      has_token <- (if dict_mem "token" p
                    then in_tokens (dict_get_none "token" p) tokens
                    else Ok false) ;;
      resolved_key <-
        (if has_token : bool then
           r <- tokens_at (dict_get_none "token" p) tokens ;;
           Ok (dict_set "resolved" r resolved_key)
         else
           has_value <- (if dict_mem "value" p
                         then in_tokens (dict_get_none "value" p) tokens
                         else Ok false) ;;
           if has_value : bool then
             r <- tokens_at (dict_get_none "value" p) tokens ;;
             Ok (dict_set "token" (dict_get_none "value" p)
                   (dict_set "resolved" r resolved_key))
           else Ok resolved_key) ;;
      match dict_get "value" p with
      | Some (VStr s) =>
          if (endswith "px" s && negb (has_char " " s))%bool then
            n <- py_int (replace "px" "" s) ;;
            Ok (dict_set "normalized" (VInt n) resolved_key)
          else Ok resolved_key
      | _ => Ok resolved_key
      end
  | VStr s =>
      if dict_mem s tokens then
        r <- dict_at s tokens ;;
        Ok [("token", prop); ("value", prop); ("resolved", r)]
      else if (endswith "px" s && negb (has_char " " s))%bool then
        n <- py_int (replace "px" "" s) ;;
        Ok [("value", prop); ("normalized", VInt n)]
      else Ok [("value", prop)]
  | _ => Ok [("value", prop)]
  end.

Fixpoint resolve_loop (items : list (string * value)) (tokens resolved : dict)
  : result dict :=
  match items with
  | [] => Ok resolved
  | (key, prop) :: rest =>
      d <- resolve_prop prop tokens ;;
      resolve_loop rest tokens (dict_set key (VDict d) resolved)
  end.

Definition resolve_tokens (props tokens : dict) : result dict :=
  resolve_loop props tokens [].

(** The body of the loop of [compare_components]: the issues the key
    appends. *)
Definition compare_key (key : string) (figma_val : value) (pr_props : dict)
  : result (list issue) :=
  let pr_val := dict_get_none key pr_props in
  if negb (truthy pr_val) then
    if (String.eqb key "imageAltRequired" && is_True figma_val)%bool then
      Ok [mk_issue "MAJOR" "alt"
            [("required", VBool true)]
            [("missing", VBool true)]
            [Text "Add alt attribute for accessibility compliance"]
            "ACCESSIBILITY_VIOLATION"]
    else if (contains "hover" key || contains "focus" key)%bool then Ok []
    else
      Ok [mk_issue "MINOR" key
            [("value", figma_val)]
            [("missing", VBool true)]
            [Text "Add missing property: "; Interp (VStr key)]
            "MISSING_PROPERTY"]
  else
    match figma_val, pr_val with
    | VDict fd, VDict pd =>
        if (truthy (dict_get_none "token" fd)
            && truthy (dict_get_none "token" pd))%bool then
          ft <- dict_at "token" fd ;;
          pt <- dict_at "token" pd ;;
          if negb (py_eq ft pt) then
            Ok [mk_issue "MAJOR" key
                  [("token", ft); ("value", dict_get_none "resolved" fd)]
                  [("token", pt); ("value", dict_get_none "resolved" pd)]
                  [Text "Update PR to use '"; Interp ft;
                   Text "' token instead of '"; Interp pt; Text "'"]
                  "TOKEN_MISMATCH"]
          else Ok []
        else if (is_not_None (dict_get_none "normalized" fd)
                 && is_not_None (dict_get_none "normalized" pd))%bool then
          fnorm <- dict_at "normalized" fd ;;
          pnorm <- dict_at "normalized" pd ;;
          diff <- abs_sub fnorm pnorm ;;
          if diff >? 0 then
            let severity := if diff >? 2 then "MAJOR" else "MINOR" in
            Ok [mk_issue severity key
                  [("value", dict_get_none "value" fd)]
                  [("value", dict_get_none "value" pd)]
                  [Text "Consider using "; Interp (dict_get_none "value" fd);
                   Text " to match design spec (current: ";
                   Interp (dict_get_none "value" pd); Text ")"]
                  "VALUE_DIFFERENCE"]
          else Ok []
        else if String.eqb key "borderRadius" then
          let figma_value := dict_get_none "value" fd in
          let pr_value := dict_get_none "value" pd in
          if (py_eq figma_value (VStr "9999px")
              && py_eq pr_value (VStr "50%"))%bool then
            Ok [mk_issue "MINOR" key
                  [("value", figma_value)]
                  [("value", pr_value)]
                  [Text "Different border-radius approach but same visual effect"]
                  "IMPLEMENTATION_DIFFERENCE"]
          else Ok []
        else Ok []
    | _, _ => Ok []
    end.

Fixpoint compare_loop (items : list (string * value)) (pr_props : dict)
  (issues : list issue) : result (list issue) :=
  match items with
  | [] => Ok issues
  | (key, figma_val) :: rest =>
      new <- compare_key key figma_val pr_props ;;
      compare_loop rest pr_props (issues ++ new)
  end.

Definition compare_components (figma_props pr_props : dict)
  (component_name : string) : result (list issue) :=
  compare_loop figma_props pr_props [].

(** The steps of [process_design_review] on one component, from the parsed
    reference properties, the token dictionary and the markup to the issue
    list. *)
Definition process_component (figma_props tokens : dict) (pr_content : string)
  (component : string) : result (list issue) :=
  pr_props <- parse_jsx_props pr_content ;;
  figma_resolved <- resolve_tokens figma_props tokens ;;
  pr_resolved <- resolve_tokens pr_props tokens ;;
  compare_components figma_resolved pr_resolved component.

(** The loop of [process_design_review] that updates the summary counts. *)
Fixpoint update_summary (issues : list issue) (s : summary) : summary :=
  match issues with
  | [] => s
  | i :: rest =>
      update_summary rest
        (if String.eqb (severity i) "MAJOR"
         then mk_summary (S (major s)) (minor s) (warnings s)
         else if String.eqb (severity i) "MINOR"
              then mk_summary (major s) (S (minor s)) (warnings s)
              else mk_summary (major s) (minor s) (S (warnings s)))
  end.

End Index.

(** ** [src/app.py] *)

Module App.


Definition parse_property_value (value : value) : result dict :=
  css_var_match <- re_search css_var_pattern value ;;
  match css_var_match with
  | Some m =>
      let token_name := group1 m in
      Ok [("token", VStr token_name); ("value", VStr token_name)]
  | None =>
      match value with
      | VStr s =>
          if endswith "px" s then
            if has_char " " s then Ok [("value", value)]
            else
              match py_int (replace "px" "" s) with
              | Ok n => Ok [("value", value); ("normalized", VInt n)]
              | Raise ValueError => Ok [("value", value)]
              | Raise e => Raise e
              end
          else if endswith "%" s then
            Ok [("value", value); ("type", VStr "percentage")]
          else if isdigit s then
            n <- py_int s ;;
            Ok [("value", value); ("normalized", VInt n)]
          else if (has_char "-" s && negb (startswith "var(" s))%bool then
            Ok [("token", value); ("value", value)]
          else Ok [("value", value)]
      | _ => Ok [("value", value)]
      end
  end.

Definition map_css_property_name (css_prop : string) : string :=
  let mapping :=
    [("color", VStr "textColor");
     ("background", VStr "backgroundColor");
     ("backgroundColor", VStr "backgroundColor");
     ("fontSize", VStr "fontSize");
     ("fontWeight", VStr "fontWeight");
     ("fontFamily", VStr "fontFamily");
     ("borderRadius", VStr "borderRadius");
     ("padding", VStr "padding");
     ("lineHeight", VStr "lineHeight")] in
  match dict_get css_prop mapping with
  | Some (VStr name) => name
  | _ => css_prop
  end.

(** The first loop of [parse_jsx_props], over the attribute matches. *)
Fixpoint attr_loop (matches : list (list string)) (props : dict)
  : result dict :=
  match matches with
  | [] => Ok props
  | m :: rest =>
      kv <- unpack2 m ;;
      let (key, value) := kv in
      if String.eqb key "style" then attr_loop rest props
      else
        d <- parse_property_value (VStr value) ;;
        attr_loop rest (dict_set key (VDict d) props)
  end.

(** The second loop of [parse_jsx_props], over the entries of the style
    block. *)
Fixpoint css_loop (css_matches : list (list string)) (props : dict)
  : result dict :=
  match css_matches with
  | [] => Ok props
  | m :: rest =>
      kv <- unpack2 m ;;
      let (css_key, css_value) := kv in
      let clean_value := strip_chars (dq ++ "'") (strip css_value) in
      let prop_name := map_css_property_name css_key in
      d <- parse_property_value (VStr clean_value) ;;
      css_loop rest (dict_set prop_name (VDict d) props)
  end.

Definition parse_jsx_props (jsx_content : string) : result dict :=
  let matches := findall prop_pattern jsx_content in
  props <- attr_loop matches [] ;;
  let style_match := search style_object_pattern jsx_content in
  match style_match with
  | Some m =>
      let style_content := group1 m in
      let css_matches := findall css_prop_pattern style_content in
      css_loop css_matches props
  | None => Ok props
  end.

(** The body of the loop of [resolve_tokens]: the descriptor stored under
    the key of [prop]. *)
Definition resolve_prop (prop : value) (tokens : dict) : result dict :=
  match prop with
  | VDict p =>
      let resolved_key := p in
      has_token <- (if dict_mem "token" p
                    then in_tokens (dict_get_none "token" p) tokens
                    else Ok false) ;;
      resolved_key <-
        (if has_token : bool then
           r <- tokens_at (dict_get_none "token" p) tokens ;;
           Ok (dict_set "resolved" r resolved_key)
         else
           has_value <- (if dict_mem "value" p
                         then in_tokens (dict_get_none "value" p) tokens
                         else Ok false) ;;
           if has_value : bool then
             r <- tokens_at (dict_get_none "value" p) tokens ;;
             Ok (dict_set "token" (dict_get_none "value" p)
                   (dict_set "resolved" r resolved_key))
           else Ok resolved_key) ;;
      Ok resolved_key
  | VStr s =>
      if dict_mem s tokens then
        r <- dict_at s tokens ;;
        Ok [("token", prop); ("value", prop); ("resolved", r)]
      else if (endswith "px" s && negb (has_char " " s))%bool then
        n <- py_int (replace "px" "" s) ;;
        Ok [("value", prop); ("normalized", VInt n)]
      else Ok [("value", prop)]
  | _ => Ok [("value", prop)]
  end.

Fixpoint resolve_loop (items : list (string * value)) (tokens resolved : dict)
  : result dict :=
  match items with
  | [] => Ok resolved
  | (key, prop) :: rest =>
      d <- resolve_prop prop tokens ;;
      resolve_loop rest tokens (dict_set key (VDict d) resolved)
  end.

Definition resolve_tokens (props tokens : dict) : result dict :=
  resolve_loop props tokens [].

(** The body of the loop of [compare_components]: the issues the key
    appends. *)
Definition compare_key (key : string) (figma_val : value) (pr_props : dict)
  : result (list issue) :=
  let pr_val := dict_get_none key pr_props in
  if negb (truthy pr_val) then
    if (String.eqb key "imageAltRequired" && is_True figma_val)%bool then
      Ok [mk_issue "MAJOR" "alt"
            [("required", VBool true)]
            [("missing", VBool true)]
            [Text "Add alt attribute for accessibility compliance"]
            "ACCESSIBILITY_VIOLATION"]
    else if (contains "hover" key || contains "focus" key)%bool then Ok []
    else
      Ok [mk_issue "MINOR" key
            [("value", figma_val)]
            [("missing", VBool true)]
            [Text "Add missing property: "; Interp (VStr key)]
            "MISSING_PROPERTY"]
  else
    match figma_val, pr_val with
    | VDict fd, VDict pd =>
        if (truthy (dict_get_none "token" fd)
            && truthy (dict_get_none "token" pd))%bool then
          ft <- dict_at "token" fd ;;
          pt <- dict_at "token" pd ;;
          if negb (py_eq ft pt) then
            Ok [mk_issue "MAJOR" key
                  [("token", ft); ("value", dict_get_none "resolved" fd)]
                  [("token", pt); ("value", dict_get_none "resolved" pd)]
                  [Text "Update PR to use '"; Interp ft;
                   Text "' token instead of '"; Interp pt; Text "'"]
                  "TOKEN_MISMATCH"]
          else Ok []
        else if (is_not_None (dict_get_none "normalized" fd)
                 && is_not_None (dict_get_none "normalized" pd))%bool then
          fnorm <- dict_at "normalized" fd ;;
          pnorm <- dict_at "normalized" pd ;;
          diff <- abs_sub fnorm pnorm ;;
          if diff >? 0 then
            let severity := if diff >? 2 then "MAJOR" else "MINOR" in
            Ok [mk_issue severity key
                  [("value", dict_get_none "value" fd)]
                  [("value", dict_get_none "value" pd)]
                  [Text "Consider using "; Interp (dict_get_none "value" fd);
                   Text " to match design spec (current: ";
                   Interp (dict_get_none "value" pd); Text ")"]
                  "VALUE_DIFFERENCE"]
          else Ok []
        else if String.eqb key "borderRadius" then
          let figma_value := dict_get_none "value" fd in
          let pr_value := dict_get_none "value" pd in
          if (py_eq figma_value (VStr "9999px")
              && py_eq pr_value (VStr "50%"))%bool then
            Ok [mk_issue "MINOR" key
                  [("value", figma_value)]
                  [("value", pr_value)]
                  [Text "Different border-radius approach but same visual effect"]
                  "IMPLEMENTATION_DIFFERENCE"]
          else Ok []
        else Ok []
    | _, _ => Ok []
    end.

Fixpoint compare_loop (items : list (string * value)) (pr_props : dict)
  (issues : list issue) : result (list issue) :=
  match items with
  | [] => Ok issues
  | (key, figma_val) :: rest =>
      new <- compare_key key figma_val pr_props ;;
      compare_loop rest pr_props (issues ++ new)
  end.

Definition compare_components (figma_props pr_props : dict)
  (component_name : string) : result (list issue) :=
  compare_loop figma_props pr_props [].

(** The steps of [analyze] between the validation of the request and the
    response: from the parsed reference properties, the token dictionary and
    the markup to the issue list. *)
Definition analyze (figma_props tokens : dict) (jsx_content : string)
  (component_name : string) : result (list issue) :=
  pr_props <- parse_jsx_props jsx_content ;;
  figma_resolved <- resolve_tokens figma_props tokens ;;
  pr_resolved <- resolve_tokens pr_props tokens ;;
  compare_components figma_resolved pr_resolved component_name.

(** [len([i for i in issues if i['severity'] == s])]. *)
Definition count_severity (s : string) (issues : list issue) : nat :=
  length (filter (fun i => String.eqb (severity i) s) issues).

(** The ['summary'] entry of the response of [analyze]. *)
Definition summarize (issues : list issue) : summary :=
  mk_summary (count_severity "MAJOR" issues)
             (count_severity "MINOR" issues)
             (count_severity "WARNING" issues).

End App.

(** ** Notions the statements use *)

(** [str(n)] for a non-negative integer: its decimal digits. *)
Definition str_of_nat (n : nat) : string :=
  NilZero.string_of_uint (Nat.to_uint n).

(** The text has no more characters than [int()] accepts digits. *)
Definition within_limit (s : string) : bool :=
  Nat.leb (String.length s) int_max_str_digits.

(** A digit string too long for [int()]. *)
Definition overlong_number (s : string) : bool :=
  (isdigit s && negb (within_limit s))%bool.

(** The number 10^4300 in decimal: a one and 4300 zeros, 4301 digits. *)
Definition big_uint : Decimal.uint :=
  Decimal.D1 (Nat.iter 4300 Decimal.D0 Decimal.Nil).


(** A single (not compound) pixel length, as the resolver tests it. *)
Definition single_px (s : string) : bool :=
  (endswith "px" s && negb (has_char " " s))%bool.

(** A structured descriptor whose ['value'] is a single pixel length. *)
Definition px_descriptor (v : value) : bool :=
  match v with
  | VDict p =>
      match dict_get "value" p with
      | Some (VStr s) => single_px s
      | _ => false
      end
  | _ => false
  end.

(** The issue the comparator emits for a key whose normalized values [a]
    and [b] differ. *)
Definition value_difference (key : string) (fd pd : dict) (a b : Z) : issue :=
  mk_issue (if Z.abs (a - b) >? 2 then "MAJOR" else "MINOR") key
    [("value", dict_get_none "value" fd)]
    [("value", dict_get_none "value" pd)]
    [Text "Consider using "; Interp (dict_get_none "value" fd);
     Text " to match design spec (current: ";
     Interp (dict_get_none "value" pd); Text ")"]
    "VALUE_DIFFERENCE".

(** The severities the comparator uses. *)
Definition major_or_minor (i : issue) : Prop :=
  severity i = "MAJOR" \/ severity i = "MINOR".

(** An issue reported for the reference key [key]: under the key itself, or
    under [alt] by the accessibility rule. *)
Definition issue_of_key (key : string) (i : issue) : Prop :=
  property i = key \/ (key = "imageAltRequired" /\ property i = "alt").

(** [l1] is [l2] with some elements left out, order kept. *)
Inductive subseq {A : Type} : list A -> list A -> Prop :=
| subseq_nil : subseq [] []
| subseq_skip (x : A) (l1 l2 : list A) : subseq l1 l2 -> subseq l1 (x :: l2)
| subseq_keep (x : A) (l1 l2 : list A) :
    subseq l1 l2 -> subseq (x :: l1) (x :: l2).





(** The entry holds a structured descriptor. *)
Definition is_descriptor (kv : string * value) : Prop :=
  match snd kv with
  | VDict _ => True
  | _ => False
  end.

Definition avatar_markup : string :=
  "<img src=" ++ dq ++ "avatar.png" ++ dq ++ " />".

(** ** Notions of the further properties *)

(** The shape of the descriptors the value parser builds: a string under
    [value], an integer under [normalized] if anything, a string under
    [token] if anything. *)
Definition parsed_descriptor (d : dict) : bool :=
  (match dict_get "value" d with
   | Some (VStr _) => true
   | _ => false
   end
   && match dict_get "normalized" d with
      | None | Some (VInt _) => true
      | _ => false
      end
   && match dict_get "token" d with
      | None | Some (VStr _) => true
      | _ => false
      end)%bool.

(** The entry holds a descriptor of that shape. *)
Definition descriptor_entry (kv : string * value) : Prop :=
  match snd kv with
  | VDict d => parsed_descriptor d = true
  | _ => False
  end.

(** The key names an interaction state: ['hover' in key or 'focus' in key]. *)
Definition interaction_state (key : string) : bool :=
  (contains "hover" key || contains "focus" key)%bool.

(** The issue the comparator emits for a key whose two tokens differ. *)
Definition token_mismatch (key : string) (fd pd : dict) (ft pt : value)
  : issue :=
  mk_issue "MAJOR" key
    [("token", ft); ("value", dict_get_none "resolved" fd)]
    [("token", pt); ("value", dict_get_none "resolved" pd)]
    [Text "Update PR to use '"; Interp ft;
     Text "' token instead of '"; Interp pt; Text "'"]
    "TOKEN_MISMATCH".

(** The issue the comparator emits for a reference key the implementation
    lacks. *)
Definition missing_property (key : string) (figma_val : value) : issue :=
  mk_issue "MINOR" key
    [("value", figma_val)]
    [("missing", VBool true)]
    [Text "Add missing property: "; Interp (VStr key)]
    "MISSING_PROPERTY".

(** The issue the comparator emits by its accessibility rule. *)
Definition accessibility_issue : issue :=
  mk_issue "MAJOR" "alt"
    [("required", VBool true)]
    [("missing", VBool true)]
    [Text "Add alt attribute for accessibility compliance"]
    "ACCESSIBILITY_VIOLATION".

(** What a reference entry contributes when the implementation lacks its
    key. *)
Definition missing_issues (kv : string * value) : list issue :=
  if (String.eqb (fst kv) "imageAltRequired" && is_True (snd kv))%bool
  then [accessibility_issue]
  else if interaction_state (fst kv) then []
       else [missing_property (fst kv) (snd kv)].

(** The loop of [resolve_tokens] around any loop body; the loops of the two
    files are its instances. *)
Fixpoint resolve_loop_with (body : value -> dict -> result dict)
  (items : list (string * value)) (tokens resolved : dict) : result dict :=
  match items with
  | [] => Ok resolved
  | (key, prop) :: rest =>
      d <- body prop tokens ;;
      resolve_loop_with body rest tokens (dict_set key (VDict d) resolved)
  end.

(** The loop of [process_design_review] that updates the counts of the
    metadata, [totalIssues] with the summary ([src/index.py], lines 282 to
    289). *)
Fixpoint update_metadata (issues : list issue) (totalIssues : nat)
  (s : summary) : nat * summary :=
  match issues with
  | [] => (totalIssues, s)
  | i :: rest =>
      update_metadata rest (S totalIssues)
        (if String.eqb (severity i) "MAJOR"
         then mk_summary (S (major s)) (minor s) (warnings s)
         else if String.eqb (severity i) "MINOR"
              then mk_summary (major s) (S (minor s)) (warnings s)
              else mk_summary (major s) (minor s) (S (warnings s)))
  end.

(** * Properties *)

(** ** The result monad *)

Lemma bind_ok {A B : Type} (m : result A) (f : A -> result B) (b : B) :
  bind m f = Ok b -> exists a, m = Ok a /\ f a = Ok b.
Proof.
  destruct m as [a | e]; simpl; intros H; [eauto | discriminate].
Qed.

Ltac inv_bind H :=
  let a := fresh "a" in
  let Ha := fresh "Ha" in
  apply bind_ok in H; destruct H as (a & Ha & H).

(** ** Strings *)

#[local] Arguments Ascii.eqb : simpl never.
#[local] Arguments String.eqb : simpl never.

Lemma has_char_app (c : ascii) (s t : string) :
  has_char c (s ++ t) = (has_char c s || has_char c t)%bool.
Proof.
  induction s as [| a s IH]; simpl; [reflexivity |].
  now rewrite IH, orb_assoc.
Qed.

Lemma all_chars_no_char (p : ascii -> bool) (c : ascii) (s : string) :
  p c = false -> all_chars p s = true -> has_char c s = false.
Proof.
  intros Hc. induction s as [| a s IH]; simpl; [reflexivity |].
  intros H. apply andb_true_iff in H. destruct H as [Ha Hs].
  rewrite (IH Hs), orb_false_r.
  destruct (Ascii.eqb_spec a c) as [-> | _]; [congruence | reflexivity].
Qed.

Lemma endswith_app (p s : string) : endswith p (s ++ p) = true.
Proof.
  induction s as [| a s IH]; cbn [append endswith].
  - destruct p as [| b p]; [reflexivity |].
    cbn [endswith]. now rewrite String.eqb_refl.
  - now rewrite IH, orb_true_r.
Qed.

Lemma replace_px_suffix (s : string) :
  has_char "p" s = false -> replace "px" "" (s ++ "px") = s.
Proof.
  unfold replace. induction s as [| a s IH]; simpl; [reflexivity |].
  intros H. apply orb_false_iff in H. destruct H as [Ha Hs].
  rewrite (Ascii.eqb_sym "p" a), Ha. simpl. now rewrite (IH Hs).
Qed.

Lemma uint_digits (d : Decimal.uint) :
  all_chars is_digit (NilEmpty.string_of_uint d) = true.
Proof. induction d; simpl; auto. Qed.

Lemma str_of_uint_digits (d : Decimal.uint) :
  all_chars is_digit (NilZero.string_of_uint d) = true.
Proof. destruct d; try apply uint_digits; reflexivity. Qed.

Lemma str_of_uint_isdigit (d : Decimal.uint) :
  isdigit (NilZero.string_of_uint d) = true.
Proof. destruct d; simpl; try reflexivity; apply uint_digits. Qed.

(** *** [int()] reads back the digits of a number *)

Lemma scan_digits_uint (d : Decimal.uint) (acc : nat) :
  scan_digits (NilEmpty.string_of_uint d) false (Z.of_nat acc)
  = Some (Z.of_nat (Nat.of_uint_acc d acc), EmptyString).
Proof.
  revert acc.
  induction d; intros acc; simpl; [reflexivity | ..];
    match goal with
    | |- scan_digits _ false ?z = Some (Z.of_nat (Nat.of_uint_acc _ ?n), _) =>
        replace z with (Z.of_nat n);
        [apply IHd
        | rewrite ?Nat2Z.inj_succ, Nat.tail_mul_spec, Nat2Z.inj_mul;
          unfold digit_val; simpl; lia]
    end.
Qed.

Lemma count_chars_le (p : ascii -> bool) (s : string) :
  (count_chars p s <= String.length s)%nat.
Proof.
  induction s as [| c s IH]; cbn [count_chars String.length]; [lia |].
  destruct (p c); lia.
Qed.

Lemma count_chars_all (p : ascii -> bool) (s : string) :
  all_chars p s = true -> count_chars p s = String.length s.
Proof.
  induction s as [| c s IH]; cbn [all_chars count_chars String.length];
    [reflexivity |].
  intros H. apply andb_true_iff in H. destruct H as [-> Hs].
  now rewrite (IH Hs).
Qed.

Lemma isdigit_all (s : string) : isdigit s = true -> all_chars is_digit s = true.
Proof. destruct s; [discriminate | trivial]. Qed.

(** Within the limit, [int()] reads a digit string to the value of the
    scan. *)
Lemma int_unsigned_scan (s : string) (n : Z) :
  isdigit s = true ->
  within_limit s = true ->
  scan_digits s false 0 = Some (n, EmptyString) ->
  int_unsigned s = Some n.
Proof.
  intros Hd Hl Hs. destruct s as [| c t]; [discriminate |].
  unfold int_unsigned. rewrite Hs.
  pose proof (isdigit_all _ Hd) as Ha.
  cbn [all_chars] in Ha. apply andb_true_iff in Ha. destruct Ha as [Hc _].
  rewrite Hc. cbn [all_chars andb].
  replace (Nat.leb (count_chars is_digit (String c t)) int_max_str_digits)
    with true; [reflexivity |].
  symmetry. apply Nat.leb_le. apply Nat.leb_le in Hl.
  exact (Nat.le_trans _ _ _ (count_chars_le is_digit (String c t)) Hl).
Qed.

Lemma lstrip_digits (s : string) :
  isdigit s = true -> lstrip_by is_int_space s = s.
Proof.
  destruct s as [| c s]; [reflexivity |].
  unfold isdigit. cbn [all_chars lstrip_by]. intros H.
  apply andb_true_iff in H. destruct H as [Hc _].
  replace (is_int_space c) with false; [reflexivity |].
  revert Hc. unfold is_digit, is_int_space.
  generalize (nat_of_ascii c). intros n H.
  apply andb_true_iff in H. destruct H as [H1 H2].
  apply Nat.leb_le in H1. symmetry.
  apply orb_false_iff. split.
  - apply andb_false_iff. right. apply Nat.leb_gt. lia.
  - apply Nat.eqb_neq. lia.
Qed.

Lemma scan_digits_all (s : string) (acc : Z) :
  all_chars is_digit s = true ->
  exists n, scan_digits s false acc = Some (n, EmptyString).
Proof.
  revert acc. induction s as [| c s IH]; intros acc H; cbn [scan_digits].
  - eauto.
  - cbn [all_chars] in H. apply andb_true_iff in H. destruct H as [Hc Hs].
    rewrite Hc. now apply IH.
Qed.

Lemma sign_dispatch_digit (c : ascii) (t : string) :
  is_digit c = true ->
  match String c t with
  | String "+" u => int_unsigned u
  | String "-" u => option_map Z.opp (int_unsigned u)
  | _ => int_unsigned (String c t)
  end = int_unsigned (String c t).
Proof.
  destruct c as [[] [] [] [] [] [] [] []]; intros H;
    try reflexivity; discriminate H.
Qed.

(** On a digit string [int()] is its unsigned reading. *)
Lemma py_int_digits (s : string) :
  isdigit s = true ->
  py_int s = match int_unsigned s with
             | Some n => Ok n
             | None => Raise ValueError
             end.
Proof.
  intros H. unfold py_int. rewrite (lstrip_digits s H).
  destruct s as [| c t]; [discriminate |].
  pose proof (isdigit_all _ H) as Ha.
  cbn [all_chars] in Ha. apply andb_true_iff in Ha. destruct Ha as [Hc _].
  now rewrite (sign_dispatch_digit c t Hc).
Qed.

(** [int()] accepts every string [isdigit()] accepts, up to the limit. *)
Lemma py_int_isdigit (s : string) :
  isdigit s = true -> within_limit s = true -> exists n, py_int s = Ok n.
Proof.
  intros H Hl. rewrite (py_int_digits s H).
  destruct (scan_digits_all s 0 (isdigit_all s H)) as [n Hn].
  rewrite (int_unsigned_scan s n H Hl Hn). eauto.
Qed.

(** Beyond the limit [int()] refuses a digit string. *)
Lemma py_int_over_limit (s : string) :
  isdigit s = true -> within_limit s = false -> py_int s = Raise ValueError.
Proof.
  intros H Hl. rewrite (py_int_digits s H).
  destruct (scan_digits_all s 0 (isdigit_all s H)) as [n Hn].
  destruct s as [| c t]; [discriminate |].
  unfold int_unsigned. rewrite Hn.
  rewrite (count_chars_all is_digit _ (isdigit_all _ H)).
  unfold within_limit in Hl. rewrite Hl, andb_false_r.
  now destruct (is_digit c).
Qed.

Lemma py_int_str_of_uint (d : Decimal.uint) :
  within_limit (NilZero.string_of_uint d) = true ->
  py_int (NilZero.string_of_uint d) = Ok (Z.of_nat (Nat.of_uint d)).
Proof.
  intros Hl. rewrite (py_int_digits _ (str_of_uint_isdigit d)).
  rewrite (int_unsigned_scan _ (Z.of_nat (Nat.of_uint d))
             (str_of_uint_isdigit d) Hl); [reflexivity |].
  pose proof (scan_digits_uint d 0) as H. change (Z.of_nat 0) with 0 in H.
  destruct d; [reflexivity | exact H ..].
Qed.

(** [int(str(n)) == n], up to the limit. *)
Lemma py_int_str_of_nat (n : nat) :
  within_limit (str_of_nat n) = true ->
  py_int (str_of_nat n) = Ok (Z.of_nat n).
Proof.
  unfold str_of_nat. intros Hl. rewrite (py_int_str_of_uint _ Hl).
  now rewrite DecimalNat.Unsigned.of_to.
Qed.

(** ** Regular expressions *)

Lemma match_at_var_none (a : ascii) (s : string) :
  Ascii.eqb a "v" = false -> match_at css_var_pattern (String a s) = None.
Proof.
  intros H. unfold match_at, css_var_pattern.
  cbn [matches startswith]. rewrite (Ascii.eqb_sym "v" a), H. reflexivity.
Qed.

(** A text without the letter v holds no CSS variable reference. *)
Lemma search_var_none (s : string) :
  has_char "v" s = false -> search css_var_pattern s = None.
Proof.
  induction s as [| a s IH]; [reflexivity |].
  cbn [has_char search]. intros H.
  apply orb_false_iff in H. destruct H as [Ha Hs].
  now rewrite (match_at_var_none a s Ha), (IH Hs).
Qed.

(** ** The two files *)

Lemma parse_property_value_agree (v : value) :
  App.parse_property_value v = Index.parse_property_value v.
Proof. reflexivity. Qed.

Lemma map_css_property_name_agree (css_prop : string) :
  App.map_css_property_name css_prop = Index.map_css_property_name css_prop.
Proof. reflexivity. Qed.

Lemma parse_jsx_props_agree (jsx_content : string) :
  App.parse_jsx_props jsx_content = Index.parse_jsx_props jsx_content.
Proof. reflexivity. Qed.

Lemma compare_key_agree (key : string) (figma_val : value) (pr_props : dict) :
  App.compare_key key figma_val pr_props
  = Index.compare_key key figma_val pr_props.
Proof. reflexivity. Qed.

Lemma compare_components_agree (figma_props pr_props : dict) (name : string) :
  App.compare_components figma_props pr_props name
  = Index.compare_components figma_props pr_props name.
Proof. reflexivity. Qed.

(** Outside the descriptors the re-check of [src/index.py] acts on, the two
    resolvers store the same descriptor. *)
Lemma resolve_prop_agree (prop : value) (tokens : dict) :
  px_descriptor prop = false ->
  App.resolve_prop prop tokens = Index.resolve_prop prop tokens.
Proof.
  destruct prop as [| b | z | s | l | p]; try reflexivity.
  unfold px_descriptor, single_px, App.resolve_prop, Index.resolve_prop.
  intros H. f_equal.
  destruct (dict_get "value" p) as [[| b | z | s | l | q] |]; try reflexivity.
  now rewrite H.
Qed.

Lemma resolve_loop_agree (items : list (string * value))
  (tokens resolved : dict) :
  forallb (fun kv => negb (px_descriptor (snd kv))) items = true ->
  App.resolve_loop items tokens resolved
  = Index.resolve_loop items tokens resolved.
Proof.
  revert resolved.
  induction items as [| [key prop] rest IH]; intros resolved H;
    [reflexivity |].
  cbn [forallb snd] in H. apply andb_true_iff in H. destruct H as [Hp Hr].
  apply negb_true_iff in Hp.
  cbn [App.resolve_loop Index.resolve_loop].
  rewrite (resolve_prop_agree _ tokens Hp).
  destruct (Index.resolve_prop prop tokens) as [d | e]; [| reflexivity].
  cbn [bind]. now apply IH.
Qed.

(** ** The value parser *)

(** On a string no earlier rule applies to, the parser returns the value
    alone. *)
Lemma parse_property_value_default (s : string) :
  search css_var_pattern s = None ->
  endswith "px" s = false ->
  endswith "%" s = false ->
  isdigit s = false ->
  (has_char "-" s && negb (startswith "var(" s))%bool = false ->
  Index.parse_property_value (VStr s) = Ok [("value", VStr s)].
Proof.
  intros Hv Hpx Hpc Hd Ht. unfold Index.parse_property_value, re_search.
  cbn [bind]. now rewrite Hv, Hpx, Hpc, Hd, Ht.
Qed.

(** The parser returns on every string but the digit strings too long for
    [int()]: the conversion of the digits rule is not guarded. *)
Lemma parse_property_value_str (s : string) :
  if overlong_number s
  then Index.parse_property_value (VStr s) = Raise ValueError
  else exists d, Index.parse_property_value (VStr s) = Ok d.
Proof.
  unfold overlong_number, Index.parse_property_value, re_search. cbn [bind].
  destruct (isdigit s) eqn:Hd; cbn [andb].
  - pose proof (isdigit_all s Hd) as Ha.
    rewrite search_var_none
      by (apply (all_chars_no_char is_digit); [reflexivity | exact Ha]).
    assert (Hsuffix : forall p, all_chars is_digit p = false ->
                                endswith p s = false).
    { intros p Hp. destruct (endswith p s) eqn:E; [| reflexivity].
      revert E Ha Hp. clear. revert p.
      induction s as [| c s IH]; cbn [endswith all_chars]; intros p E Ha Hp.
      - apply String.eqb_eq in E. subst p. discriminate Hp.
      - apply andb_true_iff in Ha. destruct Ha as [Hc Ha].
        apply orb_true_iff in E. destruct E as [E | E].
        + apply String.eqb_eq in E. subst p. cbn [all_chars] in Hp.
          now rewrite Hc, Ha in Hp.
        + now apply (IH p). }
    rewrite !Hsuffix by reflexivity.
    destruct (within_limit s) eqn:Hl; cbn [negb].
    + destruct (py_int_isdigit s Hd Hl) as [n ->]. cbn [bind]. eauto.
    + now rewrite (py_int_over_limit s Hd Hl).
  - destruct (search css_var_pattern s) as [m |]; [eauto |].
    destruct (endswith "px" s).
    { destruct (has_char " " s); [eauto |].
      unfold py_int.
      destruct (match lstrip_by is_int_space (replace "px" "" s) with
                | String "+" t => int_unsigned t
                | String "-" t => option_map Z.opp (int_unsigned t)
                | _ => int_unsigned
                         (lstrip_by is_int_space (replace "px" "" s))
                end); eauto. }
    destruct (endswith "%" s); [eauto |].
    destruct (has_char "-" s && negb (startswith "var(" s))%bool; eauto.
Qed.


(** C6: [parse_property_value] on the digits of a non-negative integer [n]
    of at most 4300 digits followed by [px] returns a descriptor whose
    [normalized] is [n]; on a string that ends in [px] and contains a space
    it returns a descriptor without a [normalized] field.  Both files. *)
Theorem parse_px_normalized :
  (forall n : nat,
     within_limit (str_of_nat n) = true ->
     let v := VStr (str_of_nat n ++ "px") in
     Index.parse_property_value v
     = Ok [("value", v); ("normalized", VInt (Z.of_nat n))]
     /\ App.parse_property_value v
        = Ok [("value", v); ("normalized", VInt (Z.of_nat n))])
  /\ (forall s : string,
        endswith "px" s = true ->
        has_char " " s = true ->
        exists d,
          Index.parse_property_value (VStr s) = Ok d
          /\ App.parse_property_value (VStr s) = Ok d
          /\ dict_get "normalized" d = None).
Proof.
  split.
  - intros n Hl v.
    enough (H : Index.parse_property_value v
                = Ok [("value", v); ("normalized", VInt (Z.of_nat n))])
      by (split; exact H).
    subst v. unfold Index.parse_property_value, re_search. cbn [bind].
    assert (Hno : forall c, is_digit c = false ->
                            has_char c (str_of_nat n) = false).
    { intros c Hc. apply (all_chars_no_char is_digit); [exact Hc |].
      apply str_of_uint_digits. }
    rewrite search_var_none
      by (rewrite has_char_app, Hno; reflexivity).
    rewrite endswith_app.
    rewrite has_char_app, Hno by reflexivity. cbn [has_char orb].
    change (Ascii.eqb "p" " " || (Ascii.eqb "x" " " || false))%bool
      with false. cbv iota.
    rewrite replace_px_suffix by (apply Hno; reflexivity).
    now rewrite (py_int_str_of_nat n Hl).
  - intros s Hpx Hsp.
    change (App.parse_property_value (VStr s))
      with (Index.parse_property_value (VStr s)).
    unfold Index.parse_property_value, re_search. cbn [bind].
    destruct (search css_var_pattern s) as [m |].
    + eexists. repeat split.
    + rewrite Hpx, Hsp. eexists. repeat split.
Qed.

Lemma parse_px_normalized_witness :
  (Index.parse_property_value (VStr "8px")
   = Ok [("value", VStr "8px"); ("normalized", VInt 8)]
   /\ App.parse_property_value (VStr "8px")
      = Ok [("value", VStr "8px"); ("normalized", VInt 8)])
  /\ exists d,
       Index.parse_property_value (VStr "8px 12px") = Ok d
       /\ App.parse_property_value (VStr "8px 12px") = Ok d
       /\ dict_get "normalized" d = None.
Proof.
  split.
  - apply (proj1 parse_px_normalized 8%nat). reflexivity.
  - apply (proj2 parse_px_normalized "8px 12px"); reflexivity.
Defined.

Lemma str_of_big_uint :
  str_of_nat (Nat.of_uint big_uint) = NilEmpty.string_of_uint big_uint.
Proof.
  unfold str_of_nat. rewrite DecimalNat.Unsigned.to_of. reflexivity.
Qed.

(** The number 10^4300 has 4301 digits: [int()] refuses them, the guard of
    the pixel rule absorbs the refusal, and the descriptor has no
    [normalized]. *)
Lemma parse_px_over_limit :
  let n := Nat.of_uint big_uint in
  within_limit (str_of_nat n) = false
  /\ Index.parse_property_value (VStr (str_of_nat n ++ "px"))
     = Ok [("value", VStr (str_of_nat n ++ "px"))]
  /\ Index.parse_property_value (VStr (str_of_nat n ++ "px"))
     <> Ok [("value", VStr (str_of_nat n ++ "px"));
            ("normalized", VInt (Z.of_nat n))].
Proof.
  cbv zeta.
  assert (H : Index.parse_property_value
                (VStr (str_of_nat (Nat.of_uint big_uint) ++ "px"))
              = Ok [("value",
                     VStr (str_of_nat (Nat.of_uint big_uint) ++ "px"))]).
  { rewrite str_of_big_uint. vm_compute. reflexivity. }
  split; [| split; [exact H |]].
  - rewrite str_of_big_uint. vm_compute. reflexivity.
  - rewrite H. intros E.
    assert (L : forall l1 l2 : dict,
               @Ok dict l1 = Ok l2 -> length l1 = length l2)
      by (intros l1 l2 [= ->]; reflexivity).
    apply L in E. cbn [length] in E. discriminate E.
Qed.

(** C5: [parse_property_value] on an object that is not a string: the
    search for a CSS variable reference comes first and raises [TypeError],
    so the pass-through of the default case is not reached.  Both files. *)
Theorem parse_property_value_non_string :
  (forall v : value,
     match v with
     | VStr _ => True
     | _ => Index.parse_property_value v = Raise TypeError
            /\ App.parse_property_value v = Raise TypeError
     end)
  /\ Index.parse_property_value (VInt 5) = Raise TypeError
  /\ App.parse_property_value (VBool true) = Raise TypeError.
Proof.
  split; [| split; reflexivity].
  intros v. destruct v; try exact I; split; reflexivity.
Qed.

(** ** The token resolver *)

(** C2: [resolve_tokens] on a raw string that ends in [px] and whose
    remaining text is not an integer literal: the conversion is not guarded
    and the [ValueError] leaves the resolver, in both files, where
    [parse_property_value] absorbs the same failure.  The re-check of
    [src/index.py] raises the same way on a structured descriptor. *)
Theorem resolve_tokens_px_raises :
  Index.resolve_tokens [("padding", VStr "abcpx")] [] = Raise ValueError
  /\ App.resolve_tokens [("padding", VStr "abcpx")] [] = Raise ValueError
  /\ Index.resolve_tokens [("padding", VStr "1.5px")] [] = Raise ValueError
  /\ App.resolve_tokens [("padding", VStr "1.5px")] [] = Raise ValueError
  /\ Index.resolve_tokens [("padding", VDict [("value", VStr "abcpx")])] []
     = Raise ValueError
  /\ Index.parse_property_value (VStr "abcpx") = Ok [("value", VStr "abcpx")]
  /\ Index.parse_property_value (VStr "1.5px") = Ok [("value", VStr "1.5px")].
Proof. repeat split; reflexivity. Qed.

(** C4: a structured descriptor whose [value] is the single pixel length
    [8px]: the resolver of [src/index.py] stores [normalized = 8], the
    resolver of [src/app.py] returns the descriptor as it came. *)
Theorem resolve_tokens_recheck :
  Index.resolve_tokens [("padding", VDict [("value", VStr "8px")])] []
  = Ok [("padding", VDict [("value", VStr "8px"); ("normalized", VInt 8)])]
  /\ App.resolve_tokens [("padding", VDict [("value", VStr "8px")])] []
     = Ok [("padding", VDict [("value", VStr "8px")])].
Proof. split; reflexivity. Qed.

(** C3: the two files do not return identical results: on a structured
    descriptor that holds a single pixel length the resolver of
    [src/index.py] stores [normalized] and the resolver of [src/app.py] does
    not; with the reference [{padding: {value: 8px}}] against a markup with
    [padding] at [12px], the batch driver reports a MAJOR value difference
    and the web endpoint reports nothing. *)
Lemma resolve_tokens_differ :
  App.resolve_tokens [("padding", VDict [("value", VStr "8px")])] []
  <> Index.resolve_tokens [("padding", VDict [("value", VStr "8px")])] []
  /\ Index.process_component [("padding", VDict [("value", VStr "8px")])] []
       ("<div padding=" ++ dq ++ "12px" ++ dq ++ ">") "button"
     = Ok [value_difference "padding"
             [("value", VStr "8px"); ("normalized", VInt 8)]
             [("value", VStr "12px"); ("normalized", VInt 12)] 8 12]
  /\ App.analyze [("padding", VDict [("value", VStr "8px")])] []
       ("<div padding=" ++ dq ++ "12px" ++ dq ++ ">") "button"
     = Ok [].
Proof. split; [discriminate | split; reflexivity]. Qed.

(** Where the two files do agree: on [parse_property_value],
    [parse_jsx_props], [map_css_property_name] and [compare_components] at
    every input, and on [resolve_tokens] at least at every property map in
    which no structured descriptor holds a single pixel length as its
    [value]. *)
Theorem files_agree :
  (forall v, App.parse_property_value v = Index.parse_property_value v)
  /\ (forall jsx, App.parse_jsx_props jsx = Index.parse_jsx_props jsx)
  /\ (forall name,
        App.map_css_property_name name = Index.map_css_property_name name)
  /\ (forall figma_props pr_props name,
        App.compare_components figma_props pr_props name
        = Index.compare_components figma_props pr_props name)
  /\ (forall props tokens,
        forallb (fun kv => negb (px_descriptor (snd kv))) props = true ->
        App.resolve_tokens props tokens = Index.resolve_tokens props tokens).
Proof.
  repeat split.
  intros props tokens H. now apply resolve_loop_agree.
Qed.

Lemma files_agree_witness :
  App.resolve_tokens
    [("padding", VStr "8px"); ("textColor", VDict [("token", VStr "brand")])]
    [("brand", VStr "#fff")]
  = Index.resolve_tokens
      [("padding", VStr "8px"); ("textColor", VDict [("token", VStr "brand")])]
      [("brand", VStr "#fff")].
Proof.
  apply (proj2 (proj2 (proj2 (proj2 files_agree)))). reflexivity.
Defined.

(** ** The pipeline *)

(** C1: reference properties [{imageAltRequired: true}] against a markup
    without that property: the resolver wraps the boolean into a descriptor,
    the comparator's test [figma_val is True] fails on it, and the one issue
    emitted for the key is MINOR / MISSING_PROPERTY.  Both files. *)
Theorem image_alt_pipeline :
  let expected :=
    [mk_issue "MINOR" "imageAltRequired"
       [("value", VDict [("value", VBool true)])]
       [("missing", VBool true)]
       [Text "Add missing property: "; Interp (VStr "imageAltRequired")]
       "MISSING_PROPERTY"] in
  Index.parse_jsx_props avatar_markup
  = Ok [("src", VDict [("value", VStr "avatar.png")])]
  /\ Index.process_component [("imageAltRequired", VBool true)] []
       avatar_markup "avatar" = Ok expected
  /\ App.analyze [("imageAltRequired", VBool true)] []
       avatar_markup "avatar" = Ok expected.
Proof. repeat split; reflexivity. Qed.

(** ** The comparator *)

Ltac split_on H :=
  repeat match type of H with
         | context [bind ?m _] => destruct m eqn:?; cbn [bind] in H
         | context [if ?c then _ else _] => destruct c eqn:?
         | context [match ?x with _ => _ end] => destruct x eqn:?
         end.

(** A key appends nothing, or one issue of severity MAJOR or MINOR filed
    under that key. *)
Lemma compare_key_shape (key : string) (figma_val : value) (pr_props : dict)
  (new : list issue) :
  Index.compare_key key figma_val pr_props = Ok new ->
  new = []
  \/ exists i, new = [i] /\ major_or_minor i /\ issue_of_key key i.
Proof.
  unfold Index.compare_key, major_or_minor, issue_of_key. intros H.
  destruct (negb (truthy (dict_get_none key pr_props))).
  - destruct (String.eqb key "imageAltRequired" && is_True figma_val)%bool
      eqn:Ealt.
    + apply andb_true_iff in Ealt. destruct Ealt as [Ek _].
      apply String.eqb_eq in Ek. injection H as <-.
      right. eexists. cbn. auto.
    + destruct (contains "hover" key || contains "focus" key)%bool;
        injection H as <-; [now left |].
      right. eexists. cbn. auto.
  - destruct figma_val; try (injection H as <-; now left).
    destruct (dict_get_none key pr_props);
      try (injection H as <-; now left).
    split_on H; try discriminate H; injection H as <-;
      try (now left); right; eexists; cbn; auto.
Qed.

(** The loop of the comparator, against a fixed implementation map. *)
Section Comparator.

Variable pr_props : dict.

Lemma compare_loop_acc (items : list (string * value))
  (acc : list issue) :
  Index.compare_loop items pr_props acc
  = (r <- Index.compare_loop items pr_props [] ;; Ok (acc ++ r)%list).
Proof.
  revert acc. induction items as [| [key v] rest IH]; intros acc.
  - cbn. now rewrite app_nil_r.
  - cbn [Index.compare_loop].
    destruct (Index.compare_key key v pr_props) as [new | e]; [| reflexivity].
    cbn [bind app]. rewrite (IH (acc ++ new)%list), (IH new).
    destruct (Index.compare_loop rest pr_props []) as [r | e];
      [| reflexivity].
    cbn [bind]. now rewrite app_assoc.
Qed.

(** The issue list of a map is the issues of its entries, in order. *)
Lemma compare_loop_split (before after : list (string * value))
  (key : string) (figma_val : value) :
  Index.compare_loop (before ++ (key, figma_val) :: after) pr_props []
  = (i1 <- Index.compare_loop before pr_props [] ;;
     new <- Index.compare_key key figma_val pr_props ;;
     i2 <- Index.compare_loop after pr_props [] ;;
     Ok (i1 ++ new ++ i2)%list).
Proof.
  induction before as [| [k v] rest IH].
  - cbn [app Index.compare_loop bind].
    destruct (Index.compare_key key figma_val pr_props) as [new | e];
      [| reflexivity].
    cbn [bind app]. now rewrite compare_loop_acc.
  - cbn [app Index.compare_loop].
    destruct (Index.compare_key k v pr_props) as [n | e]; [| reflexivity].
    cbn [bind app]. rewrite compare_loop_acc, IH.
    rewrite (compare_loop_acc rest n).
    destruct (Index.compare_loop rest pr_props []) as [i1 | e];
      [| reflexivity].
    cbn [bind].
    destruct (Index.compare_key key figma_val pr_props) as [new | e];
      [| reflexivity].
    cbn [bind].
    destruct (Index.compare_loop after pr_props []) as [i2 | e];
      [| reflexivity].
    cbn [bind]. now rewrite app_assoc.
Qed.

Lemma compare_loop_cons (key : string) (v : value)
  (rest : list (string * value)) (issues : list issue) :
  Index.compare_loop ((key, v) :: rest) pr_props [] = Ok issues ->
  exists new r,
    Index.compare_key key v pr_props = Ok new
    /\ Index.compare_loop rest pr_props [] = Ok r
    /\ issues = (new ++ r)%list.
Proof.
  cbn [Index.compare_loop]. intros H. inv_bind H.
  cbn [app] in H. rewrite compare_loop_acc in H. inv_bind H.
  injection H as <-. eauto.
Qed.

Lemma compare_loop_forall (P : issue -> Prop)
  (items : list (string * value)) (issues : list issue) :
  (forall key v new,
     In (key, v) items ->
     Index.compare_key key v pr_props = Ok new -> Forall P new) ->
  Index.compare_loop items pr_props [] = Ok issues ->
  Forall P issues.
Proof.
  revert issues.
  induction items as [| [key v] rest IH]; intros issues HP H.
  - injection H as <-. constructor.
  - apply compare_loop_cons in H. destruct H as (new & r & Hk & Hr & ->).
    apply Forall_app. split.
    + apply (HP key v); [now left | exact Hk].
    + apply IH; [| exact Hr].
      intros k' v' new' Hin. apply HP. now right.
Qed.

Lemma compare_loop_order (items : list (string * value))
  (issues : list issue) :
  Index.compare_loop items pr_props [] = Ok issues ->
  exists keys,
    subseq keys (map fst items) /\ Forall2 issue_of_key keys issues.
Proof.
  revert issues. induction items as [| [key v] rest IH]; intros issues H.
  - injection H as <-. exists []. split; constructor.
  - apply compare_loop_cons in H. destruct H as (new & r & Hk & Hr & ->).
    destruct (IH r Hr) as (keys & Hsub & Hall).
    destruct (compare_key_shape key v pr_props new Hk)
      as [-> | (i & -> & _ & Hi)].
    + exists keys. split; [now apply subseq_skip | exact Hall].
    + exists (key :: keys). split; [now apply subseq_keep |].
      now constructor.
Qed.

End Comparator.

(** C7: a reference key whose descriptor and whose implementation
    descriptor both hold an integer [normalized], [a] and [b], and do not both
    hold a token: the comparator appends nothing when [a = b], and otherwise
    one VALUE_DIFFERENCE issue, MAJOR when [|a - b| > 2] and MINOR when not;
    the issue list of the whole map holds exactly that at the place of the
    key.  Both files. *)
Theorem compare_value_difference
  (key : string) (fd pd pr_props : dict) (a b : Z) :
  dict_get key pr_props = Some (VDict pd) ->
  dict_get "normalized" fd = Some (VInt a) ->
  dict_get "normalized" pd = Some (VInt b) ->
  (truthy (dict_get_none "token" fd)
   && truthy (dict_get_none "token" pd))%bool = false ->
  let new := if a =? b then [] else [value_difference key fd pd a b] in
  Index.compare_key key (VDict fd) pr_props = Ok new
  /\ App.compare_key key (VDict fd) pr_props = Ok new
  /\ (forall before after name,
        Index.compare_components
          (before ++ (key, VDict fd) :: after)%list pr_props name
        = (i1 <- Index.compare_components before pr_props name ;;
           i2 <- Index.compare_components after pr_props name ;;
           Ok (i1 ++ new ++ i2)%list))
  /\ (forall before after name,
        App.compare_components
          (before ++ (key, VDict fd) :: after)%list pr_props name
        = (i1 <- App.compare_components before pr_props name ;;
           i2 <- App.compare_components after pr_props name ;;
           Ok (i1 ++ new ++ i2)%list)).
Proof.
  intros Hpr Hf Hp Htok new.
  assert (Hkey : Index.compare_key key (VDict fd) pr_props = Ok new).
  { unfold Index.compare_key, dict_get_none, dict_at in *.
    rewrite Hpr. cbn [truthy].
    destruct pd as [| entry pd']; [discriminate Hp |]. cbn [negb].
    rewrite Htok, Hf, Hp. cbn [is_not_None andb bind abs_sub as_int].
    subst new. unfold value_difference.
    destruct (Z.eqb_spec a b) as [-> | Hne].
    - rewrite Z.sub_diag. reflexivity.
    - replace (Z.abs (a - b) >? 0) with true; [reflexivity |].
      symmetry. apply Z.gtb_lt. lia. }
  assert (Hall : forall before after name,
             Index.compare_components
               (before ++ (key, VDict fd) :: after)%list pr_props name
             = (i1 <- Index.compare_components before pr_props name ;;
                i2 <- Index.compare_components after pr_props name ;;
                Ok (i1 ++ new ++ i2)%list)).
  { intros before after name. unfold Index.compare_components.
    rewrite compare_loop_split, Hkey. reflexivity. }
  repeat split; [exact Hkey | exact Hkey | exact Hall | exact Hall].
Qed.

(** Reference [8px] against [10px]: a difference of 2, one MINOR issue. *)
Lemma compare_value_difference_witness :
  Index.compare_key "padding"
    (VDict [("value", VStr "8px"); ("normalized", VInt 8)])
    [("padding", VDict [("value", VStr "10px"); ("normalized", VInt 10)])]
  = Ok [mk_issue "MINOR" "padding"
          [("value", VStr "8px")] [("value", VStr "10px")]
          [Text "Consider using "; Interp (VStr "8px");
           Text " to match design spec (current: "; Interp (VStr "10px");
           Text ")"]
          "VALUE_DIFFERENCE"].
Proof.
  apply (proj1 (compare_value_difference "padding"
                  [("value", VStr "8px"); ("normalized", VInt 8)]
                  [("value", VStr "10px"); ("normalized", VInt 10)]
                  [("padding",
                    VDict [("value", VStr "10px"); ("normalized", VInt 10)])]
                  8 10 eq_refl eq_refl eq_refl eq_refl)).
Defined.

(** Reference [8px] against [12px] is MAJOR, against [8px] nothing. *)
Example compare_value_difference_scenarios :
  (exists i,
     Index.process_component [("padding", VStr "8px")] []
       ("<div padding=" ++ dq ++ "12px" ++ dq ++ ">") "button" = Ok [i]
     /\ severity i = "MAJOR" /\ category i = "VALUE_DIFFERENCE")
  /\ (exists i,
        Index.process_component [("padding", VStr "8px")] []
          ("<div padding=" ++ dq ++ "10px" ++ dq ++ ">") "button" = Ok [i]
        /\ severity i = "MINOR" /\ category i = "VALUE_DIFFERENCE")
  /\ Index.process_component [("padding", VStr "8px")] []
       ("<div padding=" ++ dq ++ "8px" ++ dq ++ ">") "button" = Ok [].
Proof.
  split; [| split]; [eexists; repeat split .. | reflexivity].
Qed.

Lemma count_severity_none (s : string) (issues : list issue) :
  Forall (fun i => severity i <> s) issues ->
  App.count_severity s issues = 0%nat.
Proof.
  unfold App.count_severity. induction 1 as [| i l Hi _ IH]; [reflexivity |].
  cbn [filter]. apply String.eqb_neq in Hi. now rewrite Hi.
Qed.

Lemma update_summary_warnings (issues : list issue) (s : summary) :
  Forall major_or_minor issues ->
  warnings (Index.update_summary issues s) = warnings s.
Proof.
  intros H. revert s. induction H as [| i l Hi _ IH]; intros s;
    [reflexivity |].
  cbn [Index.update_summary]. rewrite IH.
  destruct Hi as [-> | ->]; reflexivity.
Qed.

(** C9: every issue the comparator returns has severity MAJOR or MINOR;
    the [warnings] count of the response of [src/app.py] is 0 and the batch
    driver of [src/index.py] leaves its [warnings] count as it was. *)
Theorem comparator_severities
  (figma_props pr_props : dict) (name : string) (issues : list issue) :
  Index.compare_components figma_props pr_props name = Ok issues
  \/ App.compare_components figma_props pr_props name = Ok issues ->
  Forall major_or_minor issues
  /\ warnings (App.summarize issues) = 0%nat
  /\ warnings (Index.update_summary issues (mk_summary 0 0 0)) = 0%nat
  /\ (forall s, warnings (Index.update_summary issues s) = warnings s).
Proof.
  intros H.
  assert (Hc : Index.compare_loop figma_props pr_props [] = Ok issues)
    by (destruct H as [H | H]; exact H).
  assert (Hall : Forall major_or_minor issues).
  { apply (compare_loop_forall pr_props major_or_minor figma_props);
      [| exact Hc].
    intros key v new _ Hk.
    destruct (compare_key_shape key v pr_props new Hk)
      as [-> | (i & -> & Hi & _)]; [constructor |].
    constructor; [exact Hi | constructor]. }
  split; [exact Hall | split; [| split]].
  - cbn [App.summarize warnings]. apply count_severity_none.
    eapply Forall_impl; [| exact Hall].
    intros i [Hi | Hi]; rewrite Hi; discriminate.
  - now rewrite update_summary_warnings.
  - intros s. now apply update_summary_warnings.
Qed.

Lemma comparator_severities_witness :
  Forall major_or_minor
    [value_difference "padding" [("value", VStr "8px")]
       [("value", VStr "12px")] 8 12]
  /\ warnings
       (App.summarize
          [value_difference "padding" [("value", VStr "8px")]
             [("value", VStr "12px")] 8 12]) = 0%nat
  /\ warnings
       (Index.update_summary
          [value_difference "padding" [("value", VStr "8px")]
             [("value", VStr "12px")] 8 12] (mk_summary 0 0 0)) = 0%nat
  /\ (forall s,
        warnings
          (Index.update_summary
             [value_difference "padding" [("value", VStr "8px")]
                [("value", VStr "12px")] 8 12] s) = warnings s).
Proof.
  apply (comparator_severities
           [("padding", VDict [("value", VStr "8px"); ("normalized", VInt 8)])]
           [("padding",
             VDict [("value", VStr "12px"); ("normalized", VInt 12)])]
           "button").
  left. reflexivity.
Defined.

(** C10: the comparator is a function of the two property maps alone:
    equal maps give the same result, issue for issue, whatever component name
    comes with them; the issues follow the order of the keys of the reference
    map, at most one per key.  Both files. *)
Theorem compare_deterministic
  (figma1 pr1 figma2 pr2 : dict) (name1 name2 : string) :
  figma1 = figma2 ->
  pr1 = pr2 ->
  Index.compare_components figma1 pr1 name1
  = Index.compare_components figma2 pr2 name2
  /\ App.compare_components figma1 pr1 name1
     = App.compare_components figma2 pr2 name2
  /\ (forall issues,
        Index.compare_components figma1 pr1 name1 = Ok issues ->
        exists keys,
          subseq keys (map fst figma1) /\ Forall2 issue_of_key keys issues)
  /\ (forall issues,
        App.compare_components figma1 pr1 name1 = Ok issues ->
        exists keys,
          subseq keys (map fst figma1) /\ Forall2 issue_of_key keys issues).
Proof.
  intros -> ->. repeat split; intros issues H;
    now apply (compare_loop_order pr2 figma2).
Qed.

Lemma compare_deterministic_witness :
  Index.compare_components
    [("padding", VDict [("normalized", VInt 8)]); ("gap", VStr "4px")]
    [("padding", VDict [("normalized", VInt 12)])] "button"
  = Index.compare_components
      [("padding", VDict [("normalized", VInt 8)]); ("gap", VStr "4px")]
      [("padding", VDict [("normalized", VInt 12)])] "card".
Proof.
  apply (compare_deterministic
           [("padding", VDict [("normalized", VInt 8)]); ("gap", VStr "4px")]
           [("padding", VDict [("normalized", VInt 12)])]
           [("padding", VDict [("normalized", VInt 8)]); ("gap", VStr "4px")]
           [("padding", VDict [("normalized", VInt 12)])]
           "button" "card" eq_refl eq_refl).
Defined.

(** *** The accessibility rule behind the resolver *)

Lemma dict_set_descriptors (k : string) (d : dict) (resolved : dict) :
  Forall is_descriptor resolved ->
  Forall is_descriptor (dict_set k (VDict d) resolved).
Proof.
  induction 1 as [| [k' v'] l Hx Hl IH]; cbn [dict_set].
  - constructor; [exact I | constructor].
  - destruct (String.eqb k k'); constructor;
      [exact I | exact Hl | exact Hx | exact IH].
Qed.

(** Both resolvers return structured descriptors only. *)
Lemma resolve_loop_descriptors (items : list (string * value))
  (tokens resolved r : dict) :
  Forall is_descriptor resolved ->
  Index.resolve_loop items tokens resolved = Ok r
  \/ App.resolve_loop items tokens resolved = Ok r ->
  Forall is_descriptor r.
Proof.
  revert resolved.
  induction items as [| [key prop] rest IH]; intros resolved Hres H.
  - destruct H as [H | H]; injection H as <-; exact Hres.
  - cbn [Index.resolve_loop App.resolve_loop] in H.
    destruct H as [H | H]; inv_bind H;
      (apply (IH (dict_set key (VDict a) resolved));
       [now apply dict_set_descriptors | auto]).
Qed.

(** Against a reference map of structured descriptors the comparator never
    takes the accessibility branch. *)
Lemma compare_descriptors_no_accessibility (figma_props pr_props : dict)
  (issues : list issue) :
  Forall is_descriptor figma_props ->
  Index.compare_loop figma_props pr_props [] = Ok issues ->
  Forall (fun i => category i <> "ACCESSIBILITY_VIOLATION") issues.
Proof.
  intros Hd. apply compare_loop_forall. intros key v new Hin Hk.
  rewrite Forall_forall in Hd. specialize (Hd (key, v) Hin).
  unfold is_descriptor in Hd. cbn [snd] in Hd.
  destruct v as [| | | | | fd]; try contradiction.
  unfold Index.compare_key in Hk. cbn [is_True] in Hk.
  rewrite andb_false_r in Hk.
  split_on Hk; try discriminate Hk; injection Hk as <-;
    repeat constructor; cbn; discriminate.
Qed.

(** The pipeline of either file never reports an accessibility violation:
    the resolver has turned every reference value into a descriptor before
    the comparator tests it against [True]. *)
Lemma accessibility_rule_unreachable (figma_props tokens : dict)
  (markup name : string) (issues : list issue) :
  Index.process_component figma_props tokens markup name = Ok issues
  \/ App.analyze figma_props tokens markup name = Ok issues ->
  Forall (fun i => category i <> "ACCESSIBILITY_VIOLATION") issues.
Proof.
  unfold Index.process_component, App.analyze.
  intros [H | H];
    apply bind_ok in H; destruct H as (pr_props & _ & H);
    apply bind_ok in H; destruct H as (figma_resolved & Hf & H);
    apply bind_ok in H; destruct H as (pr_resolved & _ & H);
    (apply (compare_descriptors_no_accessibility figma_resolved pr_resolved);
     [| exact H]);
    (apply (resolve_loop_descriptors figma_props tokens [] figma_resolved);
     [constructor |]);
    first [left; exact Hf | right; exact Hf].
Qed.

(** ** The property extractor *)

Lemma dict_get_set_same (k : string) (v : value) (d : dict) :
  dict_get k (dict_set k v d) = Some v.
Proof.
  induction d as [| [k' v'] d IH]; cbn [dict_set dict_get].
  - now rewrite String.eqb_refl.
  - destruct (String.eqb k k') eqn:E; cbn [dict_get]; rewrite E;
      [reflexivity | exact IH].
Qed.

Lemma dict_get_set_other (k k' : string) (v : value) (d : dict) :
  String.eqb k' k = false ->
  dict_get k (dict_set k' v d) = dict_get k d.
Proof.
  intros Hne. induction d as [| [k0 v0] d IH]; cbn [dict_set dict_get].
  - now rewrite String.eqb_sym, Hne.
  - destruct (String.eqb k' k0) eqn:E; cbn [dict_get].
    + apply String.eqb_eq in E. subst k0.
      now rewrite String.eqb_sym, Hne.
    + now rewrite IH.
Qed.





(** The attribute phase returns a map. *)
(** *** What a match captures is no longer than the text *)














(** *** The two loops of the extractor *)









(** The attribute alone gives [10px], the style block turns it into
    [12px]. *)
Example style_entry_wins_run :
  Index.parse_jsx_props ("<div padding=" ++ dq ++ "10px" ++ dq ++ ">")
  = Ok [("padding", VDict [("value", VStr "10px"); ("normalized", VInt 10)])]
  /\ Index.parse_jsx_props
       ("<div padding=" ++ dq ++ "10px" ++ dq ++ " style={{padding: '12px'}}>")
     = Ok [("padding",
            VDict [("value", VStr "12px"); ("normalized", VInt 12)])].
Proof. split; reflexivity. Qed.

(** ** The re-check of the resolver of [src/index.py] *)

(** Where the resolver of [src/index.py] returns on a descriptor that holds
    a single pixel length, the descriptor it stores has [normalized] set to
    the magnitude. *)
Lemma resolve_prop_recheck (p tokens d : dict) (s : string) (n : Z) :
  dict_get "value" p = Some (VStr s) ->
  single_px s = true ->
  py_int (replace "px" "" s) = Ok n ->
  Index.resolve_prop (VDict p) tokens = Ok d ->
  dict_get "normalized" d = Some (VInt n).
Proof.
  intros Hv Hpx Hn H. unfold Index.resolve_prop in H.
  apply bind_ok in H. destruct H as (has_token & _ & H).
  apply bind_ok in H. destruct H as (resolved_key & _ & H).
  unfold single_px in Hpx. rewrite Hv, Hpx, Hn in H. cbn [bind] in H.
  injection H as <-. apply dict_get_set_same.
Qed.

(** * Further properties of the code *)

(** Decide the comparisons of literal keys left in the goal. *)
Ltac eval_eqb :=
  repeat match goal with
         | |- context [String.eqb ?a ?b] =>
             let r := eval vm_compute in (String.eqb a b) in
             match r with
             | true => change (String.eqb a b) with true
             | false => change (String.eqb a b) with false
             end
         end;
  cbv iota.

(** ** Matching a CSS variable reference *)

Lemma hd_error_app {A : Type} (l1 l2 : list A) :
  hd_error (l1 ++ l2)
  = match hd_error l1 with
    | Some x => Some x
    | None => hd_error l2
    end.
Proof. destruct l1; reflexivity. Qed.

Lemma hd_error_map {A B : Type} (f : A -> B) (l : list A) :
  hd_error (map f l) = option_map f (hd_error l).
Proof. destruct l; reflexivity. Qed.

Lemma str_length_app (a b : string) :
  String.length (a ++ b) = (String.length a + String.length b)%nat.
Proof. induction a as [| c a IH]; cbn; [reflexivity | now rewrite IH]. Qed.

Lemma consumed_prefix (a b : string) : consumed (a ++ b) b = a.
Proof.
  unfold consumed. rewrite str_length_app, Nat.add_sub.
  induction a as [| c a IH]; cbn [append String.length substring].
  - destruct b; reflexivity.
  - now rewrite IH.
Qed.

(** The longest repetition of a class stops at the first character outside
    it. *)
Lemma star_rests_head (p : ascii -> bool) (a : string) (x : ascii)
  (b : string) :
  all_chars p a = true ->
  p x = false ->
  hd_error (star_rests p (a ++ String x b)) = Some (String x b).
Proof.
  intros Ha Hx. induction a as [| c a IH]; cbn [append star_rests].
  - now rewrite Hx.
  - cbn [all_chars] in Ha. apply andb_true_iff in Ha. destruct Ha as [Hc Ha].
    rewrite Hc, hd_error_app, (IH Ha). reflexivity.
Qed.

Lemma no_char_all (c : ascii) (s : string) :
  has_char c s = false ->
  all_chars (not_char (String c EmptyString)) s = true.
Proof.
  induction s as [| a s IH]; cbn [has_char all_chars]; [reflexivity |].
  intros H. apply orb_false_iff in H. destruct H as [Ha Hs].
  rewrite (IH Hs), andb_true_r. unfold not_char. cbn [has_char].
  now rewrite Ascii.eqb_sym, Ha.
Qed.

Lemma startswith_cut (p a : string) (x : ascii) (b : string) :
  has_char x p = false ->
  startswith p (a ++ String x b) = startswith p a.
Proof.
  revert a. induction p as [| q p IH]; intros a H; [now destruct a |].
  cbn [has_char] in H. apply orb_false_iff in H. destruct H as [Hq Hp].
  destruct a as [| c a]; cbn [append startswith].
  - now rewrite Hq.
  - now rewrite (IH a Hp).
Qed.

(** Where the first way to match [r1] lets [r2] match, the sequence needs
    no backtracking. *)
Lemma match_at_seq (r1 r2 : regex) (s s1 s2 : string) (c1 c2 : list string) :
  match_at r1 s = Some (s1, c1) ->
  match_at r2 s1 = Some (s2, c2) ->
  match_at (Seq r1 r2) s = Some (s2, (c1 ++ c2)%list).
Proof.
  unfold match_at. cbn [matches]. intros H1 H2.
  destruct (matches r1 s) as [| m1 l1]; [discriminate |].
  injection H1 as ->. cbn [flat_map fst snd].
  now rewrite hd_error_app, hd_error_map, H2.
Qed.

Lemma match_at_lit (l s : string) :
  startswith l s = true ->
  match_at (Lit l) s = Some (drop (String.length l) s, []).
Proof. unfold match_at. cbn [matches]. now intros ->. Qed.

Lemma match_at_opt_lit (l s : string) :
  match_at (Opt (Lit l)) s
  = Some (if startswith l s then drop (String.length l) s else s, []).
Proof.
  unfold match_at. cbn [matches]. now destruct (startswith l s).
Qed.

Lemma match_at_group (r : regex) (s s1 : string) (c : list string) :
  match_at r s = Some (s1, c) ->
  match_at (Group r) s = Some (s1, consumed s s1 :: c).
Proof.
  unfold match_at. cbn [matches]. rewrite hd_error_map. now intros ->.
Qed.

Lemma match_at_plus (p : ascii -> bool) (a : string) (x : ascii)
  (b : string) :
  a <> EmptyString ->
  all_chars p a = true ->
  p x = false ->
  match_at (Plus p) (a ++ String x b) = Some (String x b, []).
Proof.
  intros Hne Ha Hx. destruct a as [| c a]; [congruence |].
  cbn [all_chars] in Ha. apply andb_true_iff in Ha. destruct Ha as [Hc Ha].
  unfold match_at. cbn [append matches]. rewrite Hc, hd_error_map.
  now rewrite (star_rests_head p a x b Ha Hx).
Qed.

(** The name and the closing parenthesis of a reference. *)
Lemma match_at_name (body rest : string) :
  body <> EmptyString ->
  has_char ")" body = false ->
  match_at (Seq (Group (Plus (not_char ")"))) (Lit ")"))
           (body ++ String ")" rest)
  = Some (rest, [body]).
Proof.
  intros Hne Hno.
  apply (match_at_seq _ _ _ (String ")" rest) rest [body] []).
  - replace [body]
      with [consumed (body ++ String ")" rest) (String ")" rest)]
      by now rewrite consumed_prefix.
    apply match_at_group, match_at_plus;
      [exact Hne | now apply no_char_all | reflexivity].
  - apply (match_at_lit ")" (String ")" rest)). reflexivity.
Qed.

Lemma match_at_var (body rest : string) :
  body <> EmptyString ->
  has_char ")" body = false ->
  startswith "color-" body = false ->
  match_at css_var_pattern ("var(--" ++ body ++ ")" ++ rest)
  = Some (rest, [body]).
Proof.
  intros Hne Hno Hcol. unfold css_var_pattern.
  apply (match_at_seq _ _ _ (body ++ ")" ++ rest) rest [] [body]);
    [now apply (match_at_lit "var(--") |].
  apply (match_at_seq _ _ _ (body ++ ")" ++ rest) rest [] [body]);
    [| now apply match_at_name].
  rewrite match_at_opt_lit.
  change (body ++ ")" ++ rest) with (body ++ String ")" rest).
  now rewrite (startswith_cut "color-" body ")" rest eq_refl), Hcol.
Qed.

Lemma match_at_var_color (body rest : string) :
  body <> EmptyString ->
  has_char ")" body = false ->
  match_at css_var_pattern ("var(--color-" ++ body ++ ")" ++ rest)
  = Some (rest, [body]).
Proof.
  intros Hne Hno. unfold css_var_pattern.
  apply (match_at_seq _ _ _ ("color-" ++ body ++ ")" ++ rest) rest [] [body]);
    [now apply (match_at_lit "var(--") |].
  apply (match_at_seq _ _ _ (body ++ ")" ++ rest) rest [] [body]);
    [| now apply match_at_name].
  now rewrite match_at_opt_lit.
Qed.

Lemma search_skip_prefix (pre s : string) :
  has_char "v" pre = false ->
  search css_var_pattern (pre ++ s) = search css_var_pattern s.
Proof.
  induction pre as [| a pre IH]; cbn [append has_char]; [reflexivity |].
  intros H. apply orb_false_iff in H. destruct H as [Ha Hp].
  cbn [search]. now rewrite (match_at_var_none a _ Ha), (IH Hp).
Qed.

Lemma search_at_start (r : regex) (s : string) (m : string * list string) :
  match_at r s = Some m -> search r s = Some (snd m).
Proof. intros H. destruct s; cbn [search]; now rewrite H. Qed.

(** X1: a value that holds [var(--NAME)] or [var(--color-NAME)], after any
    text without the letter v and before any text, parses to the token
    [NAME]: the optional [color-] prefix is dropped, everything up to the
    first closing parenthesis is the name.  Both files. *)
Theorem parse_css_variable (pre body rest : string) :
  has_char "v" pre = false ->
  body <> EmptyString ->
  has_char ")" body = false ->
  (startswith "color-" body = false ->
   Index.parse_property_value (VStr (pre ++ "var(--" ++ body ++ ")" ++ rest))
   = Ok [("token", VStr body); ("value", VStr body)]
   /\ App.parse_property_value (VStr (pre ++ "var(--" ++ body ++ ")" ++ rest))
      = Ok [("token", VStr body); ("value", VStr body)])
  /\ Index.parse_property_value
       (VStr (pre ++ "var(--color-" ++ body ++ ")" ++ rest))
     = Ok [("token", VStr body); ("value", VStr body)]
  /\ App.parse_property_value
       (VStr (pre ++ "var(--color-" ++ body ++ ")" ++ rest))
     = Ok [("token", VStr body); ("value", VStr body)].
Proof.
  intros Hpre Hne Hno.
  assert (Hcolor : Index.parse_property_value
                     (VStr (pre ++ "var(--color-" ++ body ++ ")" ++ rest))
                   = Ok [("token", VStr body); ("value", VStr body)]).
  { unfold Index.parse_property_value, re_search. cbn [bind].
    rewrite (search_skip_prefix pre _ Hpre).
    now rewrite (search_at_start _ _ _ (match_at_var_color body rest Hne Hno)). }
  split; [| split; exact Hcolor].
  intros Hcol.
  assert (Hplain : Index.parse_property_value
                     (VStr (pre ++ "var(--" ++ body ++ ")" ++ rest))
                   = Ok [("token", VStr body); ("value", VStr body)]).
  { unfold Index.parse_property_value, re_search. cbn [bind].
    rewrite (search_skip_prefix pre _ Hpre).
    now rewrite (search_at_start _ _ _ (match_at_var body rest Hne Hno Hcol)). }
  split; exact Hplain.
Qed.

Lemma parse_css_variable_witness :
  Index.parse_property_value (VStr "1px solid var(--color-brand-500) 0")
  = Ok [("token", VStr "brand-500"); ("value", VStr "brand-500")].
Proof.
  apply (proj1 (proj2 (parse_css_variable "1px solid " "brand-500" " 0"
                         eq_refl ltac:(discriminate) eq_refl))).
Defined.

(** ** The other rules of the value parser *)

(** What holds of every character of a string holds of its suffixes. *)
Lemma endswith_all_chars (q : ascii -> bool) (p s : string) :
  endswith p s = true -> all_chars q s = true -> all_chars q p = true.
Proof.
  induction s as [| c s IH]; cbn [endswith all_chars].
  - intros H _. apply String.eqb_eq in H. now subst p.
  - intros H Hs. apply andb_true_iff in Hs. destruct Hs as [Hc Hs].
    apply orb_true_iff in H. destruct H as [H | H].
    + apply String.eqb_eq in H. subst p. cbn [all_chars]. now rewrite Hc, Hs.
    + now apply IH.
Qed.

Lemma percent_not_px (s : string) :
  endswith "%" s = true -> endswith "px" s = false.
Proof.
  induction s as [| c s IH]; cbn [endswith]; [discriminate |].
  intros H. apply orb_true_iff in H. destruct H as [H | H].
  - apply String.eqb_eq in H. injection H as <- <-. reflexivity.
  - rewrite (IH H), orb_false_r. apply String.eqb_neq. intros E.
    injection E as <- <-. discriminate H.
Qed.

(** X2: a string that ends in [%] and holds no CSS variable reference
    parses to its value with type [percentage], and gets no [normalized]
    and no [token].  Both files. *)
Theorem parse_percentage (s : string) :
  endswith "%" s = true ->
  search css_var_pattern s = None ->
  Index.parse_property_value (VStr s)
  = Ok [("value", VStr s); ("type", VStr "percentage")]
  /\ App.parse_property_value (VStr s)
     = Ok [("value", VStr s); ("type", VStr "percentage")].
Proof.
  intros Hpc Hv.
  enough (H : Index.parse_property_value (VStr s)
              = Ok [("value", VStr s); ("type", VStr "percentage")])
    by (split; exact H).
  unfold Index.parse_property_value, re_search. cbn [bind].
  now rewrite Hv, (percent_not_px s Hpc), Hpc.
Qed.

Lemma parse_percentage_witness :
  Index.parse_property_value (VStr "50%")
  = Ok [("value", VStr "50%"); ("type", VStr "percentage")].
Proof. apply (proj1 (parse_percentage "50%" eq_refl eq_refl)). Defined.

(** X3: the digits of a non-negative integer [n] of at most 4300 digits,
    without a unit, parse to [normalized = n]; on a digit string of more
    than 4300 characters the parser raises [ValueError], the conversion of
    this rule having no guard.  Both files. *)
Theorem parse_plain_number :
  (forall n : nat,
     within_limit (str_of_nat n) = true ->
     Index.parse_property_value (VStr (str_of_nat n))
     = Ok [("value", VStr (str_of_nat n)); ("normalized", VInt (Z.of_nat n))]
     /\ App.parse_property_value (VStr (str_of_nat n))
        = Ok [("value", VStr (str_of_nat n));
              ("normalized", VInt (Z.of_nat n))])
  /\ (forall s : string,
        isdigit s = true ->
        within_limit s = false ->
        Index.parse_property_value (VStr s) = Raise ValueError
        /\ App.parse_property_value (VStr s) = Raise ValueError).
Proof.
  split.
  - intros n Hl.
    enough (H : Index.parse_property_value (VStr (str_of_nat n))
                = Ok [("value", VStr (str_of_nat n));
                      ("normalized", VInt (Z.of_nat n))])
      by (split; exact H).
    pose proof (str_of_uint_digits (Nat.to_uint n)) as Hd.
    fold (str_of_nat n) in Hd.
    assert (Hsuffix : forall p, all_chars is_digit p = false ->
                                endswith p (str_of_nat n) = false).
    { intros p Hp. destruct (endswith p (str_of_nat n)) eqn:E; [| reflexivity].
      now rewrite (endswith_all_chars is_digit p _ E Hd) in Hp. }
    unfold Index.parse_property_value, re_search. cbn [bind].
    rewrite search_var_none
      by (apply (all_chars_no_char is_digit); [reflexivity | exact Hd]).
    rewrite !Hsuffix by reflexivity.
    unfold str_of_nat at 1. rewrite str_of_uint_isdigit.
    now rewrite (py_int_str_of_nat n Hl).
  - intros s Hd Hl.
    enough (H : Index.parse_property_value (VStr s) = Raise ValueError)
      by (split; exact H).
    pose proof (parse_property_value_str s) as H.
    unfold overlong_number in H. now rewrite Hd, Hl in H.
Qed.

Lemma parse_plain_number_witness :
  (Index.parse_property_value (VStr "600")
   = Ok [("value", VStr "600"); ("normalized", VInt 600)]
   /\ App.parse_property_value (VStr "600")
      = Ok [("value", VStr "600"); ("normalized", VInt 600)])
  /\ Index.parse_property_value (VStr (NilEmpty.string_of_uint big_uint))
     = Raise ValueError
  /\ App.parse_property_value (VStr (NilEmpty.string_of_uint big_uint))
     = Raise ValueError.
Proof.
  split.
  - apply (proj1 parse_plain_number 600%nat). reflexivity.
  - apply (proj2 parse_plain_number (NilEmpty.string_of_uint big_uint));
      vm_compute; reflexivity.
Defined.

Lemma parse_property_value_descriptor (v : value) (d : dict) :
  Index.parse_property_value v = Ok d ->
  parsed_descriptor d = true
  /\ (dict_get "normalized" d = None \/ dict_get "token" d = None).
Proof.
  intros Hd. unfold Index.parse_property_value, re_search in Hd.
  destruct v as [| b | z | s | l | q]; try discriminate Hd.
  cbn [bind] in Hd.
  destruct (search css_var_pattern s) as [m |];
    [injection Hd as <-; split; [reflexivity | now left] |].
  split_on Hd; try discriminate Hd; injection Hd as <-;
    (split; [reflexivity | auto]).
Qed.

(** X4: whatever the parser returns is a descriptor with a string under
    [value], with [normalized] absent or an integer, with [token] absent or
    a string, and never with both [normalized] and [token].  Both files. *)
Theorem parse_property_value_shape (v : value) (d : dict) :
  Index.parse_property_value v = Ok d
  \/ App.parse_property_value v = Ok d ->
  parsed_descriptor d = true
  /\ (dict_get "normalized" d = None \/ dict_get "token" d = None).
Proof.
  intros [H | H]; now apply (parse_property_value_descriptor v).
Qed.

Lemma parse_property_value_shape_witness :
  parsed_descriptor [("value", VStr "8px"); ("normalized", VInt 8)] = true
  /\ (dict_get "normalized" [("value", VStr "8px"); ("normalized", VInt 8)]
      = None
      \/ dict_get "token" [("value", VStr "8px"); ("normalized", VInt 8)]
         = None).
Proof.
  apply (parse_property_value_shape (VStr "8px")). left. reflexivity.
Defined.

(** ** The name-mapping table *)

Lemma map_css_property_name_cases (css_prop : string) :
  (css_prop = "color" /\ Index.map_css_property_name css_prop = "textColor")
  \/ (css_prop = "background"
      /\ Index.map_css_property_name css_prop = "backgroundColor")
  \/ (css_prop <> "color" /\ css_prop <> "background"
      /\ Index.map_css_property_name css_prop = css_prop).
Proof.
  unfold Index.map_css_property_name. cbn [dict_get].
  destruct (String.eqb_spec css_prop "color") as [-> | Hc]; [now left |].
  destruct (String.eqb_spec css_prop "background") as [-> | Hb];
    [right; now left |].
  right. right. split; [exact Hc | split; [exact Hb |]].
  repeat match goal with
         | |- context [String.eqb css_prop ?k] =>
             destruct (String.eqb_spec css_prop k) as [-> | _];
             [reflexivity |]
         end.
  reflexivity.
Qed.

(** X5: the table renames [color] and [background] and nothing else, it
    never answers with either of the two names, and a mapped name maps to
    itself.  Both files. *)
Theorem map_css_property_name_canonical (css_prop : string) :
  let name := Index.map_css_property_name css_prop in
  App.map_css_property_name css_prop = name
  /\ Index.map_css_property_name name = name
  /\ (name <> css_prop -> css_prop = "color" \/ css_prop = "background")
  /\ name <> "color"
  /\ name <> "background".
Proof.
  cbv zeta. split; [reflexivity |].
  destruct (map_css_property_name_cases css_prop)
    as [[-> ->] | [[-> ->] | (Hc & Hb & ->)]].
  - repeat split; [now left | discriminate | discriminate].
  - repeat split; [now right | discriminate | discriminate].
  - destruct (map_css_property_name_cases css_prop)
      as [[E _] | [[E _] | (_ & _ & ->)]]; [contradiction .. |].
    repeat split; [congruence | exact Hc | exact Hb].
Qed.

Lemma map_css_property_name_canonical_witness :
  "color" = "color" \/ "color" = "background".
Proof.
  apply (proj1 (proj2 (proj2 (map_css_property_name_canonical "color")))).
  discriminate.
Defined.

(** ** The extractor never raises *)







(** ** The resolvers behind the extractor *)

Lemma app_resolve_prop_total (d tokens : dict) :
  parsed_descriptor d = true ->
  exists r, App.resolve_prop (VDict d) tokens = Ok r.
Proof.
  unfold parsed_descriptor, App.resolve_prop, dict_mem, dict_get_none.
  intros H. apply andb_true_iff in H. destruct H as [H Ht].
  apply andb_true_iff in H. destruct H as [Hv _].
  destruct (dict_get "value" d) as [[| | | sv | |] |]; try discriminate Hv.
  destruct (dict_get "token" d) as [[| | | st | |] |]; try discriminate Ht;
    cbn [in_tokens tokens_at bind]; unfold dict_mem;
    repeat match goal with
           | |- context [dict_get ?k tokens] =>
               destruct (dict_get k tokens); cbn [bind]
           end; eauto.
Qed.

Lemma app_resolve_loop_total (items : list (string * value))
  (tokens resolved : dict) :
  Forall descriptor_entry items ->
  exists r, App.resolve_loop items tokens resolved = Ok r.
Proof.
  intros H. revert resolved.
  induction H as [| [key prop] rest Hx _ IH]; intros resolved.
  - cbn. eauto.
  - cbn [App.resolve_loop]. unfold descriptor_entry in Hx. cbn [snd] in Hx.
    destruct prop as [| | | | | d]; try contradiction.
    destruct (app_resolve_prop_total d tokens Hx) as [r ->].
    cbn [bind]. apply IH.
Qed.



(** X8: a single pixel length whose digits do not read as an integer: the
    value parser absorbs the failure and returns the value alone, and the
    resolver of [src/index.py] then raises [ValueError] on that very
    descriptor, whatever the token dictionary, where the resolver of
    [src/app.py] returns. *)
Theorem index_resolver_reraises (key s : string) (tokens : dict) :
  single_px s = true ->
  search css_var_pattern s = None ->
  py_int (replace "px" "" s) = Raise ValueError ->
  Index.parse_property_value (VStr s) = Ok [("value", VStr s)]
  /\ Index.resolve_tokens [(key, VDict [("value", VStr s)])] tokens
     = Raise ValueError
  /\ exists r,
       App.resolve_tokens [(key, VDict [("value", VStr s)])] tokens = Ok r.
Proof.
  intros Hpx Hv Hint. split; [| split].
  - unfold Index.parse_property_value, re_search. cbn [bind]. rewrite Hv.
    unfold single_px in Hpx. apply andb_true_iff in Hpx.
    destruct Hpx as [He Hs]. apply negb_true_iff in Hs.
    now rewrite He, Hs, Hint.
  - unfold Index.resolve_tokens. cbn [Index.resolve_loop].
    unfold Index.resolve_prop, dict_mem, dict_get_none.
    cbn [dict_get]. eval_eqb. cbn [in_tokens bind].
    unfold dict_mem, single_px in *.
    destruct (dict_get s tokens) eqn:E; cbn [bind tokens_at];
      rewrite ?E; cbn [bind]; rewrite Hpx, Hint; reflexivity.
  - apply app_resolve_loop_total. constructor; [reflexivity | constructor].
Qed.

Lemma index_resolver_reraises_witness :
  Index.resolve_tokens [("padding", VDict [("value", VStr "autopx")])] []
  = Raise ValueError.
Proof.
  apply (proj1 (proj2 (index_resolver_reraises "padding" "autopx" []
                         eq_refl eq_refl eq_refl))).
Defined.

(** ** The resolver, entry by entry *)

Lemma index_resolve_loop_with (items : list (string * value))
  (tokens resolved : dict) :
  Index.resolve_loop items tokens resolved
  = resolve_loop_with Index.resolve_prop items tokens resolved.
Proof.
  revert resolved. induction items as [| [key prop] rest IH]; intros resolved;
    [reflexivity |].
  cbn [Index.resolve_loop resolve_loop_with].
  destruct (Index.resolve_prop prop tokens); cbn [bind]; auto.
Qed.

Lemma app_resolve_loop_with (items : list (string * value))
  (tokens resolved : dict) :
  App.resolve_loop items tokens resolved
  = resolve_loop_with App.resolve_prop items tokens resolved.
Proof.
  revert resolved. induction items as [| [key prop] rest IH]; intros resolved;
    [reflexivity |].
  cbn [App.resolve_loop resolve_loop_with].
  destruct (App.resolve_prop prop tokens); cbn [bind]; auto.
Qed.

Lemma dict_get_absent (k : string) (d : dict) :
  ~ In k (map fst d) -> dict_get k d = None.
Proof.
  induction d as [| [k' v'] d IH]; cbn [map fst In dict_get];
    [reflexivity |].
  intros H. destruct (String.eqb_spec k k') as [-> | _].
  - exfalso. apply H. now left.
  - apply IH. intros Hin. apply H. now right.
Qed.

Lemma dict_get_present (k : string) (v : value) (d : dict) :
  NoDup (map fst d) -> In (k, v) d -> dict_get k d = Some v.
Proof.
  induction d as [| [k' v'] d IH]; cbn [map fst In dict_get];
    [contradiction |].
  intros Hnd [E | Hin].
  - injection E as -> ->. now rewrite String.eqb_refl.
  - apply NoDup_cons_iff in Hnd. destruct Hnd as [Hk Hnd].
    destruct (String.eqb_spec k k') as [-> | _]; [| now apply IH].
    exfalso. apply Hk. apply (in_map fst) in Hin. exact Hin.
Qed.

Lemma dict_set_fresh (k : string) (v : value) (d : dict) :
  ~ In k (map fst d) -> dict_set k v d = (d ++ [(k, v)])%list.
Proof.
  induction d as [| [k' v'] d IH]; cbn [map fst In dict_set app];
    [reflexivity |].
  intros H. destruct (String.eqb_spec k k') as [-> | _].
  - exfalso. apply H. now left.
  - rewrite IH; [reflexivity |]. intros Hin. apply H. now right.
Qed.

Section ResolveLoop.

Variable body : value -> dict -> result dict.
Variable tokens : dict.

Lemma resolve_loop_entries (items : list (string * value)) (resolved r : dict) :
  NoDup (map fst items) ->
  resolve_loop_with body items tokens resolved = Ok r ->
  (forall k v,
     dict_get k items = Some v ->
     exists d, body v tokens = Ok d /\ dict_get k r = Some (VDict d))
  /\ (forall k, dict_get k items = None -> dict_get k r = dict_get k resolved).
Proof.
  revert resolved.
  induction items as [| [key prop] rest IH]; intros resolved Hnd H.
  - injection H as <-. split; [discriminate | reflexivity].
  - cbn [resolve_loop_with] in H. apply bind_ok in H.
    destruct H as (d & Hd & H).
    cbn [map fst] in Hnd. apply NoDup_cons_iff in Hnd.
    destruct Hnd as [Hkey Hnd].
    destruct (IH _ Hnd H) as [Hin Hout].
    split; intros k; cbn [dict_get];
      destruct (String.eqb_spec k key) as [-> | Hne].
    + intros v [= <-]. exists d. split; [exact Hd |].
      rewrite (Hout key (dict_get_absent key rest Hkey)).
      apply dict_get_set_same.
    + apply Hin.
    + discriminate.
    + intros Hk. rewrite (Hout k Hk). apply dict_get_set_other.
      apply String.eqb_neq. congruence.
Qed.

Lemma resolve_loop_keys (items : list (string * value)) (resolved r : dict) :
  NoDup (map fst resolved ++ map fst items) ->
  resolve_loop_with body items tokens resolved = Ok r ->
  map fst r = (map fst resolved ++ map fst items)%list.
Proof.
  revert resolved.
  induction items as [| [key prop] rest IH]; intros resolved Hnd H.
  - injection H as <-. now rewrite app_nil_r.
  - cbn [resolve_loop_with] in H. apply bind_ok in H.
    destruct H as (d & _ & H). cbn [map fst] in *.
    assert (Hfresh : ~ In key (map fst resolved)).
    { intros Hin. apply NoDup_remove_2 in Hnd. apply Hnd.
      apply in_or_app. now left. }
    rewrite (dict_set_fresh key (VDict d) resolved Hfresh) in H.
    apply IH in H.
    + rewrite H, map_app, <- app_assoc. reflexivity.
    + rewrite map_app, <- app_assoc. exact Hnd.
Qed.

End ResolveLoop.

(** X9: the resolver works entry by entry.  On a property map with
    distinct keys, the map it returns has the same keys in the same order,
    and under each key the descriptor the loop body gives for the value of
    that key alone.  Both files. *)
Theorem resolve_tokens_entrywise (props tokens r : dict) :
  NoDup (map fst props) ->
  (Index.resolve_tokens props tokens = Ok r ->
   map fst r = map fst props
   /\ forall key prop,
        dict_get key props = Some prop ->
        exists d,
          Index.resolve_prop prop tokens = Ok d
          /\ dict_get key r = Some (VDict d))
  /\ (App.resolve_tokens props tokens = Ok r ->
      map fst r = map fst props
      /\ forall key prop,
           dict_get key props = Some prop ->
           exists d,
             App.resolve_prop prop tokens = Ok d
             /\ dict_get key r = Some (VDict d)).
Proof.
  intros Hnd. unfold Index.resolve_tokens, App.resolve_tokens.
  rewrite index_resolve_loop_with, app_resolve_loop_with.
  split; intros H; (split;
    [exact (resolve_loop_keys _ tokens props [] r Hnd H)
    | exact (proj1 (resolve_loop_entries _ tokens props [] r Hnd H))]).
Qed.

Lemma resolve_tokens_entrywise_witness :
  map fst [("padding", VDict [("value", VStr "8px"); ("normalized", VInt 8)]);
           ("gap", VDict [("value", VInt 4)])]
  = map fst [("padding", VStr "8px"); ("gap", VInt 4)].
Proof.
  apply (proj1 (resolve_tokens_entrywise
                  [("padding", VStr "8px"); ("gap", VInt 4)] []
                  [("padding",
                    VDict [("value", VStr "8px"); ("normalized", VInt 8)]);
                   ("gap", VDict [("value", VInt 4)])]
                  ltac:(repeat constructor; cbn; intuition discriminate))).
  reflexivity.
Defined.

(** ** The comparator is driven by the reference map *)

Lemma compare_key_lookup (key : string) (figma_val : value)
  (pr1 pr2 : dict) :
  dict_get key pr1 = dict_get key pr2 ->
  Index.compare_key key figma_val pr1 = Index.compare_key key figma_val pr2.
Proof.
  intros H. unfold Index.compare_key, dict_get_none. now rewrite H.
Qed.

Lemma compare_loop_lookup (items : list (string * value)) (pr1 pr2 : dict)
  (issues : list issue) :
  (forall key, In key (map fst items) -> dict_get key pr1 = dict_get key pr2) ->
  Index.compare_loop items pr1 issues = Index.compare_loop items pr2 issues.
Proof.
  revert issues. induction items as [| [key v] rest IH]; intros issues H;
    [reflexivity |].
  cbn [Index.compare_loop].
  rewrite (compare_key_lookup key v pr1 pr2) by (apply H; now left).
  destruct (Index.compare_key key v pr2); [| reflexivity].
  cbn [bind]. apply IH. intros k Hk. apply H. now right.
Qed.

(** X10: the comparison reads the implementation map at the keys of the
    reference map only: two implementation maps that agree on those keys
    give the same result, whatever else they hold.  Both files. *)
Theorem compare_reference_driven (figma_props pr1 pr2 : dict)
  (name : string) :
  (forall key,
     In key (map fst figma_props) -> dict_get key pr1 = dict_get key pr2) ->
  Index.compare_components figma_props pr1 name
  = Index.compare_components figma_props pr2 name
  /\ App.compare_components figma_props pr1 name
     = App.compare_components figma_props pr2 name.
Proof.
  intros H. split; now apply compare_loop_lookup.
Qed.

Lemma compare_reference_driven_witness :
  Index.compare_components [("padding", VStr "8px")]
    [("padding", VDict [("value", VStr "8px")]);
     ("margin", VDict [("value", VStr "4px")])] "button"
  = Index.compare_components [("padding", VStr "8px")]
      [("padding", VDict [("value", VStr "8px")])] "button".
Proof.
  apply (proj1 (compare_reference_driven [("padding", VStr "8px")]
                  [("padding", VDict [("value", VStr "8px")]);
                   ("margin", VDict [("value", VStr "4px")])]
                  [("padding", VDict [("value", VStr "8px")])] "button"
                  ltac:(intros key [<- | []]; reflexivity))).
Defined.

(** X11: when both descriptors of a key hold a token that counts as true,
    the tokens alone decide: equal tokens give no issue, even where the
    normalized values differ, and different tokens give one MAJOR /
    TOKEN_MISMATCH issue.  Both files. *)
Theorem compare_token_rule
  (key : string) (fd pd pr_props : dict) (ft pt : value) :
  dict_get key pr_props = Some (VDict pd) ->
  dict_get "token" fd = Some ft ->
  dict_get "token" pd = Some pt ->
  truthy ft = true ->
  truthy pt = true ->
  let new := if py_eq ft pt then [] else [token_mismatch key fd pd ft pt] in
  Index.compare_key key (VDict fd) pr_props = Ok new
  /\ App.compare_key key (VDict fd) pr_props = Ok new.
Proof.
  intros Hpr Hf Hp Hft Hpt new.
  enough (H : Index.compare_key key (VDict fd) pr_props = Ok new)
    by (split; exact H).
  unfold Index.compare_key, dict_get_none, dict_at. rewrite Hpr.
  cbn [truthy]. destruct pd as [| entry pd']; [discriminate Hp |].
  cbn [negb]. rewrite Hf, Hp, Hft, Hpt. cbn [andb bind].
  subst new. now destruct (py_eq ft pt).
Qed.

Lemma compare_token_rule_witness :
  Index.compare_key "gap"
    (VDict [("token", VStr "space-md"); ("normalized", VInt 8)])
    [("gap", VDict [("token", VStr "space-md"); ("normalized", VInt 12)])]
  = Ok [].
Proof.
  apply (proj1 (compare_token_rule "gap"
                  [("token", VStr "space-md"); ("normalized", VInt 8)]
                  [("token", VStr "space-md"); ("normalized", VInt 12)]
                  [("gap", VDict [("token", VStr "space-md");
                                  ("normalized", VInt 12)])]
                  (VStr "space-md") (VStr "space-md")
                  eq_refl eq_refl eq_refl eq_refl eq_refl)).
Defined.

(** ** Missing properties *)

Lemma compare_key_missing (key : string) (figma_val : value)
  (pr_props : dict) :
  dict_get key pr_props = None ->
  Index.compare_key key figma_val pr_props
  = Ok (missing_issues (key, figma_val)).
Proof.
  intros H. unfold Index.compare_key, dict_get_none, missing_issues.
  rewrite H. cbn [truthy negb fst snd]. fold (interaction_state key).
  destruct (String.eqb key "imageAltRequired" && is_True figma_val)%bool;
    [reflexivity |].
  now destruct (interaction_state key).
Qed.

(** One issue under the key, or none when the key names an interaction
    state. *)
Lemma missing_issues_per_key (key : string) (figma_val : value) :
  if interaction_state key
  then missing_issues (key, figma_val) = []
  else exists i,
         missing_issues (key, figma_val) = [i]
         /\ issue_of_key key i
         /\ pr i = [("missing", VBool true)].
Proof.
  unfold missing_issues, issue_of_key. cbn [fst snd].
  destruct (String.eqb_spec key "imageAltRequired") as [-> | _].
  - change (interaction_state "imageAltRequired") with false.
    destruct (is_True figma_val); cbn [andb]; eexists;
      (split; [reflexivity | split; [cbn; auto | reflexivity]]).
  - cbn [andb]. destruct (interaction_state key); [reflexivity |].
    eexists. split; [reflexivity | split; [now left | reflexivity]].
Qed.

(** X12: against an implementation map that has none of the reference
    keys the comparison returns the contributions of the reference entries
    in their order: nothing for a key that names an interaction state
    ([hover] or [focus] in it), and for every other key exactly one issue,
    filed under that key ([alt] for [imageAltRequired] with value [True])
    and marking the implementation side as missing.  Both files. *)
Theorem compare_all_missing (figma_props pr_props : dict) (name : string) :
  (forall key, In key (map fst figma_props) -> dict_get key pr_props = None) ->
  Index.compare_components figma_props pr_props name
  = Ok (flat_map missing_issues figma_props)
  /\ App.compare_components figma_props pr_props name
     = Ok (flat_map missing_issues figma_props)
  /\ (forall key figma_val,
        if interaction_state key
        then missing_issues (key, figma_val) = []
        else exists i,
               missing_issues (key, figma_val) = [i]
               /\ issue_of_key key i
               /\ pr i = [("missing", VBool true)])
  /\ length (flat_map missing_issues figma_props)
     = length (filter (fun kv => negb (interaction_state (fst kv)))
                 figma_props)
  /\ Forall (fun i => pr i = [("missing", VBool true)])
       (flat_map missing_issues figma_props).
Proof.
  intros H.
  assert (G : Index.compare_loop figma_props pr_props []
              = Ok (flat_map missing_issues figma_props)).
  { induction figma_props as [| [key v] rest IH]; [reflexivity |].
    cbn [Index.compare_loop flat_map].
    rewrite (compare_key_missing key v pr_props) by (apply H; now left).
    cbn [bind app]. rewrite compare_loop_acc, IH; [reflexivity |].
    intros k Hk. apply H. now right. }
  split; [exact G | split; [exact G | split; [| split]]].
  - apply missing_issues_per_key.
  - clear. induction figma_props as [| [key v] rest IH]; [reflexivity |].
    cbn [flat_map filter fst]. rewrite length_app, IH.
    pose proof (missing_issues_per_key key v) as Hk.
    destruct (interaction_state key); cbn [negb].
    + now rewrite Hk.
    + destruct Hk as (i & -> & _). reflexivity.
  - clear. induction figma_props as [| [key v] rest IH]; [constructor |].
    cbn [flat_map]. apply Forall_app. split; [| exact IH].
    pose proof (missing_issues_per_key key v) as Hk.
    destruct (interaction_state key).
    + rewrite Hk. constructor.
    + destruct Hk as (i & -> & _ & Hi). constructor; [exact Hi | constructor].
Qed.

Lemma compare_all_missing_witness :
  Index.compare_components
    [("padding", VStr "8px"); ("hoverColor", VStr "red")] [] "button"
  = Ok [missing_property "padding" (VStr "8px")].
Proof.
  apply (proj1 (compare_all_missing
                  [("padding", VStr "8px"); ("hoverColor", VStr "red")] []
                  "button" ltac:(reflexivity))).
Defined.

(** ** A map against itself *)

Lemma compare_key_self (key : string) (d : dict) (pr_props : dict) :
  parsed_descriptor d = true ->
  dict_get key pr_props = Some (VDict d) ->
  Index.compare_key key (VDict d) pr_props = Ok [].
Proof.
  unfold parsed_descriptor. intros Hd Hpr.
  apply andb_true_iff in Hd. destruct Hd as [Hd Ht].
  apply andb_true_iff in Hd. destruct Hd as [Hv Hn].
  unfold Index.compare_key, dict_get_none, dict_at. rewrite Hpr.
  cbn [truthy]. destruct d as [| entry d']; [discriminate Hv |].
  cbn [negb].
  destruct (dict_get "token" (entry :: d')) as [[| | | t | |] |];
    try discriminate Ht; cbn [truthy].
  - destruct (negb (String.eqb t "")); cbn [andb bind py_eq].
    + now rewrite String.eqb_refl.
    + destruct (dict_get "normalized" (entry :: d')) as [[| | n | | |] |];
        try discriminate Hn; cbn [is_not_None andb bind abs_sub as_int].
      * now rewrite Z.sub_diag.
      * destruct (dict_get "value" (entry :: d')) as [[| | | s | |] |];
          try discriminate Hv.
        destruct (String.eqb key "borderRadius"); [| reflexivity].
        cbn [py_eq].
        destruct (String.eqb_spec s "9999px") as [-> | _]; reflexivity.
  - cbn [andb].
    destruct (dict_get "normalized" (entry :: d')) as [[| | n | | |] |];
      try discriminate Hn; cbn [is_not_None andb bind abs_sub as_int].
    + now rewrite Z.sub_diag.
    + destruct (dict_get "value" (entry :: d')) as [[| | | s | |] |];
        try discriminate Hv.
      destruct (String.eqb key "borderRadius"); [| reflexivity].
      cbn [py_eq].
      destruct (String.eqb_spec s "9999px") as [-> | _]; reflexivity.
Qed.

(** X13: a property map with distinct keys whose entries are descriptors
    of the shape the value parser builds, compared with itself, gives no
    issue.  Both files. *)
Theorem compare_self_no_issue (props : dict) (name : string) :
  NoDup (map fst props) ->
  Forall descriptor_entry props ->
  Index.compare_components props props name = Ok []
  /\ App.compare_components props props name = Ok [].
Proof.
  intros Hnd Hd.
  enough (G : forall items,
             (forall kv, In kv items -> In kv props) ->
             Index.compare_loop items props [] = Ok [])
    by (split; apply G; auto).
  induction items as [| [key v] rest IH]; intros Hsub; [reflexivity |].
  cbn [Index.compare_loop].
  assert (Hin : In (key, v) props) by (apply Hsub; now left).
  rewrite Forall_forall in Hd. pose proof (Hd _ Hin) as Hv.
  unfold descriptor_entry in Hv. cbn [snd] in Hv.
  destruct v as [| | | | | d]; try contradiction.
  rewrite (compare_key_self key d props Hv
             (dict_get_present key (VDict d) props Hnd Hin)).
  cbn [bind app]. apply IH. intros kv Hkv. apply Hsub. now right.
Qed.

Lemma compare_self_no_issue_witness :
  Index.compare_components
    [("padding", VDict [("value", VStr "8px"); ("normalized", VInt 8)]);
     ("textColor", VDict [("token", VStr "brand"); ("value", VStr "brand")])]
    [("padding", VDict [("value", VStr "8px"); ("normalized", VInt 8)]);
     ("textColor", VDict [("token", VStr "brand"); ("value", VStr "brand")])]
    "button"
  = Ok [].
Proof.
  apply (proj1 (compare_self_no_issue
                  [("padding",
                    VDict [("value", VStr "8px"); ("normalized", VInt 8)]);
                   ("textColor",
                    VDict [("token", VStr "brand"); ("value", VStr "brand")])]
                  "button"
                  ltac:(repeat constructor; cbn; intuition discriminate)
                  ltac:(repeat constructor))).
Defined.

(** ** The counts of the two drivers *)

Lemma update_metadata_spec (issues : list issue) (total : nat) (s : summary) :
  update_metadata issues total s
  = ((total + length issues)%nat, Index.update_summary issues s).
Proof.
  revert total s. induction issues as [| i rest IH]; intros total s.
  - cbn. now rewrite Nat.add_0_r.
  - cbn [update_metadata Index.update_summary length]. rewrite IH.
    now rewrite Nat.add_succ_r.
Qed.

Lemma update_summary_sum (issues : list issue) (s : summary) :
  let s' := Index.update_summary issues s in
  (major s' + minor s' + warnings s'
   = major s + minor s + warnings s + length issues)%nat.
Proof.
  cbv zeta. revert s. induction issues as [| i rest IH]; intros s.
  - cbn. lia.
  - cbn [Index.update_summary length]. rewrite IH.
    destruct (String.eqb (severity i) "MAJOR");
      [| destruct (String.eqb (severity i) "MINOR")]; cbn; lia.
Qed.

(** X14: the batch driver keeps [totalIssues] equal to the sum of the three
    counts of its summary: if they agree before the issues of a component are
    counted they agree after, and [totalIssues] has grown by the number of
    issues. *)
Theorem update_metadata_invariant (issues : list issue) (total : nat)
  (s : summary) :
  total = (major s + minor s + warnings s)%nat ->
  let (total', s') := update_metadata issues total s in
  total' = (major s' + minor s' + warnings s')%nat
  /\ total' = (total + length issues)%nat
  /\ s' = Index.update_summary issues s.
Proof.
  intros H. rewrite update_metadata_spec.
  pose proof (update_summary_sum issues s) as Hs. cbv zeta in Hs.
  repeat split. lia.
Qed.

Lemma update_metadata_invariant_witness :
  let (total', s') :=
    update_metadata [missing_property "gap" (VStr "4px")] 3
      (mk_summary 1 2 0) in
  total' = (major s' + minor s' + warnings s')%nat
  /\ total' = (3 + 1)%nat
  /\ s' = Index.update_summary [missing_property "gap" (VStr "4px")]
            (mk_summary 1 2 0).
Proof.
  apply (update_metadata_invariant [missing_property "gap" (VStr "4px")] 3
           (mk_summary 1 2 0)).
  reflexivity.
Defined.

Lemma update_summary_counts (issues : list issue) (s : summary) :
  Forall major_or_minor issues ->
  Index.update_summary issues s
  = mk_summary (major s + App.count_severity "MAJOR" issues)
               (minor s + App.count_severity "MINOR" issues)
               (warnings s).
Proof.
  intros H. revert s. unfold App.count_severity.
  induction H as [| i l Hi _ IH]; intros s.
  - cbn. rewrite !Nat.add_0_r. now destruct s.
  - cbn [Index.update_summary filter]. rewrite IH.
    destruct Hi as [-> | ->]; eval_eqb;
      cbn [major minor warnings length]; f_equal; lia.
Qed.

Lemma comparator_major_or_minor (figma_props pr_props : dict)
  (issues : list issue) :
  Index.compare_loop figma_props pr_props [] = Ok issues ->
  Forall major_or_minor issues.
Proof.
  apply compare_loop_forall. intros key v new _ Hk.
  destruct (compare_key_shape key v pr_props new Hk)
    as [-> | (i & -> & Hi & _)]; [constructor |].
  constructor; [exact Hi | constructor].
Qed.

(** X15: on the issues of a comparison the two drivers count alike: the
    summary of the response of [src/app.py] is the summary the batch driver
    of [src/index.py] reaches from zero, and its major and minor counts add
    up to the number of issues. *)
Theorem summaries_agree (figma_props pr_props : dict) (name : string)
  (issues : list issue) :
  Index.compare_components figma_props pr_props name = Ok issues
  \/ App.compare_components figma_props pr_props name = Ok issues ->
  App.summarize issues = Index.update_summary issues (mk_summary 0 0 0)
  /\ (major (App.summarize issues) + minor (App.summarize issues))%nat
     = length issues.
Proof.
  intros H.
  assert (Hall : Forall major_or_minor issues).
  { apply (comparator_major_or_minor figma_props pr_props).
    destruct H as [H | H]; exact H. }
  assert (Hw : App.count_severity "WARNING" issues = 0%nat).
  { apply count_severity_none. eapply Forall_impl; [| exact Hall].
    intros i [Hi | Hi]; rewrite Hi; discriminate. }
  assert (E : App.summarize issues
              = Index.update_summary issues (mk_summary 0 0 0)).
  { rewrite (update_summary_counts issues _ Hall).
    unfold App.summarize. now rewrite Hw. }
  split; [exact E |].
  pose proof (update_summary_sum issues (mk_summary 0 0 0)) as Hs.
  cbv zeta in Hs. rewrite <- E in Hs. cbn [App.summarize warnings] in Hs.
  rewrite Hw in Hs. cbn [major minor warnings] in Hs. lia.
Qed.

Lemma summaries_agree_witness :
  App.summarize [missing_property "gap" (VStr "4px")]
  = Index.update_summary [missing_property "gap" (VStr "4px")]
      (mk_summary 0 0 0)
  /\ (major (App.summarize [missing_property "gap" (VStr "4px")])
      + minor (App.summarize [missing_property "gap" (VStr "4px")]))%nat
     = length [missing_property "gap" (VStr "4px")].
Proof.
  apply (summaries_agree [("gap", VStr "4px")] [] "button").
  left. reflexivity.
Defined.

(** ** Pixel lengths through the three stages *)

Lemma px_string_facts (n : nat) :
  within_limit (str_of_nat n) = true ->
  let s := str_of_nat n ++ "px" in
  search css_var_pattern s = None
  /\ endswith "px" s = true
  /\ has_char " " s = false
  /\ py_int (replace "px" "" s) = Ok (Z.of_nat n).
Proof.
  intros Hl. cbv zeta.
  assert (Hno : forall c, is_digit c = false ->
                          has_char c (str_of_nat n) = false).
  { intros c Hc. apply (all_chars_no_char is_digit); [exact Hc |].
    apply str_of_uint_digits. }
  repeat split.
  - apply search_var_none. rewrite has_char_app, Hno; reflexivity.
  - apply endswith_app.
  - rewrite has_char_app, Hno; reflexivity.
  - rewrite replace_px_suffix by (apply Hno; reflexivity).
    now apply py_int_str_of_nat.
Qed.

Lemma compare_key_normalized (key : string) (fd pd pr_props : dict)
  (a b : Z) :
  dict_get key pr_props = Some (VDict pd) ->
  dict_get "normalized" fd = Some (VInt a) ->
  dict_get "normalized" pd = Some (VInt b) ->
  dict_get "token" fd = None ->
  Index.compare_key key (VDict fd) pr_props
  = Ok (if a =? b then [] else [value_difference key fd pd a b]).
Proof.
  intros Hpr Hf Hp Htok.
  unfold Index.compare_key, dict_get_none, dict_at. rewrite Hpr.
  cbn [truthy]. destruct pd as [| entry pd']; [discriminate Hp |].
  cbn [negb]. rewrite Htok, Hf, Hp.
  cbn [truthy is_not_None andb bind abs_sub as_int].
  unfold value_difference.
  destruct (Z.eqb_spec a b) as [-> | Hne].
  - now rewrite Z.sub_diag.
  - replace (Z.abs (a - b) >? 0) with true; [reflexivity |].
    symmetry. apply Z.gtb_lt. lia.
Qed.

(** X16: a reference length of [a] pixels, given as a raw string, against
    an implementation value of [b] pixels, both numbers of at most 4300
    digits and neither string being a token key:
    resolving the reference, parsing and resolving the implementation value
    and comparing gives no issue when [a = b] and otherwise one
    VALUE_DIFFERENCE issue, MAJOR when the lengths are more than 2 apart and
    MINOR when not.  Both files. *)
Theorem px_through_stages (key name : string) (a b : nat) (tokens : dict) :
  within_limit (str_of_nat a) = true ->
  within_limit (str_of_nat b) = true ->
  dict_get (str_of_nat a ++ "px") tokens = None ->
  dict_get (str_of_nat b ++ "px") tokens = None ->
  let fd := [("value", VStr (str_of_nat a ++ "px"));
             ("normalized", VInt (Z.of_nat a))] in
  let pd := [("value", VStr (str_of_nat b ++ "px"));
             ("normalized", VInt (Z.of_nat b))] in
  let issues :=
    if Z.of_nat a =? Z.of_nat b then []
    else [value_difference key fd pd (Z.of_nat a) (Z.of_nat b)] in
  Index.parse_property_value (VStr (str_of_nat b ++ "px")) = Ok pd
  /\ Index.resolve_tokens [(key, VStr (str_of_nat a ++ "px"))] tokens
     = Ok [(key, VDict fd)]
  /\ Index.resolve_tokens [(key, VDict pd)] tokens = Ok [(key, VDict pd)]
  /\ Index.compare_components [(key, VDict fd)] [(key, VDict pd)] name
     = Ok issues
  /\ App.parse_property_value (VStr (str_of_nat b ++ "px")) = Ok pd
  /\ App.resolve_tokens [(key, VStr (str_of_nat a ++ "px"))] tokens
     = Ok [(key, VDict fd)]
  /\ App.resolve_tokens [(key, VDict pd)] tokens = Ok [(key, VDict pd)]
  /\ App.compare_components [(key, VDict fd)] [(key, VDict pd)] name
     = Ok issues.
Proof.
  intros Hla Hlb Ha Hb fd pd issues.
  destruct (px_string_facts a Hla) as (_ & Hea & Hsa & Hia).
  destruct (px_string_facts b Hlb) as (Hvb & Heb & Hsb & Hib).
  assert (Hparse : Index.parse_property_value (VStr (str_of_nat b ++ "px"))
                   = Ok pd).
  { unfold Index.parse_property_value, re_search. cbn [bind].
    now rewrite Hvb, Heb, Hsb, Hib. }
  assert (Hcmp : Index.compare_components [(key, VDict fd)] [(key, VDict pd)]
                   name = Ok issues).
  { unfold Index.compare_components. cbn [Index.compare_loop].
    rewrite (compare_key_normalized key fd pd [(key, VDict pd)]
               (Z.of_nat a) (Z.of_nat b));
      [| cbn [dict_get]; now rewrite String.eqb_refl
       | reflexivity | reflexivity | reflexivity].
    cbn [bind app]. reflexivity. }
  repeat split; try exact Hparse; try exact Hcmp.
  - unfold Index.resolve_tokens. cbn [Index.resolve_loop].
    unfold Index.resolve_prop, dict_mem. now rewrite Ha, Hea, Hsa, Hia.
  - unfold Index.resolve_tokens. cbn [Index.resolve_loop].
    unfold Index.resolve_prop, dict_mem, dict_get_none, pd.
    cbn [dict_get]. eval_eqb. cbn [in_tokens bind]. unfold dict_mem.
    rewrite Hb. cbn [bind]. rewrite Heb, Hsb, Hib.
    cbn [negb andb bind dict_set]. eval_eqb. reflexivity.
  - unfold App.resolve_tokens. cbn [App.resolve_loop].
    unfold App.resolve_prop, dict_mem. now rewrite Ha, Hea, Hsa, Hia.
  - unfold App.resolve_tokens. cbn [App.resolve_loop].
    unfold App.resolve_prop, dict_mem, dict_get_none, pd.
    cbn [dict_get]. eval_eqb. cbn [in_tokens bind]. unfold dict_mem.
    now rewrite Hb.
Qed.

Lemma px_through_stages_witness :
  Index.compare_components
    [("padding", VDict [("value", VStr "8px"); ("normalized", VInt 8)])]
    [("padding", VDict [("value", VStr "12px"); ("normalized", VInt 12)])]
    "button"
  = Ok [value_difference "padding"
          [("value", VStr "8px"); ("normalized", VInt 8)]
          [("value", VStr "12px"); ("normalized", VInt 12)] 8 12].
Proof.
  apply (proj1 (proj2 (proj2 (proj2
           (px_through_stages "padding" "button" 8 12 []
              eq_refl eq_refl eq_refl eq_refl))))).
Defined.

(** ** Reference keys the extractor cannot produce *)

Lemma attr_loop_absent (k : string) (matches : list (list string))
  (props props' : dict) :
  forallb (fun m => negb (String.eqb (hd EmptyString m) k)) matches = true ->
  dict_get k props = None ->
  Index.attr_loop matches props = Ok props' ->
  dict_get k props' = None.
Proof.
  revert props. induction matches as [| m rest IH]; intros props Hk Hp H.
  - now injection H as <-.
  - cbn [forallb] in Hk. apply andb_true_iff in Hk. destruct Hk as [Hm Hk].
    apply negb_true_iff in Hm.
    cbn [Index.attr_loop] in H. apply bind_ok in H.
    destruct H as ([key value] & Hu & H).
    destruct m as [| x [| y [| z m]]]; try discriminate Hu.
    injection Hu as <- <-. cbn [hd] in Hm.
    destruct (String.eqb x "style"); [now apply (IH props) |].
    apply bind_ok in H. destruct H as (d & _ & H).
    apply (IH _ Hk) in H; [exact H |].
    now rewrite dict_get_set_other.
Qed.

Lemma css_loop_absent (k : string) (css_matches : list (list string))
  (props props' : dict) :
  (forall name, Index.map_css_property_name name <> k) ->
  dict_get k props = None ->
  Index.css_loop css_matches props = Ok props' ->
  dict_get k props' = None.
Proof.
  intros Hk. revert props.
  induction css_matches as [| m rest IH]; intros props Hp H.
  - now injection H as <-.
  - cbn [Index.css_loop] in H. apply bind_ok in H.
    destruct H as ([css_key css_value] & _ & H).
    apply bind_ok in H. destruct H as (d & _ & H).
    apply IH in H; [exact H |].
    rewrite dict_get_set_other; [exact Hp |].
    apply String.eqb_neq. apply Hk.
Qed.

Lemma resolve_loop_absent (body : value -> dict -> result dict)
  (k : string) (items : list (string * value)) (tokens resolved r : dict) :
  dict_get k items = None ->
  resolve_loop_with body items tokens resolved = Ok r ->
  dict_get k r = dict_get k resolved.
Proof.
  revert resolved. induction items as [| [key prop] rest IH];
    intros resolved Hk H.
  - now injection H as <-.
  - cbn [dict_get] in Hk.
    destruct (String.eqb k key) eqn:E; [discriminate Hk |].
    cbn [resolve_loop_with] in H. apply bind_ok in H.
    destruct H as (d & _ & H). rewrite (IH _ Hk H).
    apply dict_get_set_other. now rewrite String.eqb_sym.
Qed.

(** X17: a markup without an attribute named [color] gives a property map
    without the key [color], whatever its style block holds, because style
    entries are stored under their canonical names; the resolved map has no
    such key either, and the comparator reports a reference key [color] as a
    missing property.  Both files. *)
Theorem style_color_is_not_color (jsx_content : string)
  (props tokens pr_resolved : dict) (figma_val : value) :
  forallb (fun m => negb (String.eqb (hd EmptyString m) "color"))
          (findall prop_pattern jsx_content) = true ->
  Index.parse_jsx_props jsx_content = Ok props ->
  Index.resolve_tokens props tokens = Ok pr_resolved
  \/ App.resolve_tokens props tokens = Ok pr_resolved ->
  App.parse_jsx_props jsx_content = Ok props
  /\ dict_get "color" props = None
  /\ dict_get "color" pr_resolved = None
  /\ Index.compare_key "color" figma_val pr_resolved
     = Ok [missing_property "color" figma_val]
  /\ App.compare_key "color" figma_val pr_resolved
     = Ok [missing_property "color" figma_val].
Proof.
  intros Hattr Hparse Hres.
  assert (Hprops : dict_get "color" props = None).
  { unfold Index.parse_jsx_props in Hparse. apply bind_ok in Hparse.
    destruct Hparse as (props0 & H0 & H).
    apply (attr_loop_absent "color") in H0; [| exact Hattr | reflexivity].
    destruct (search style_object_pattern jsx_content) as [m |];
      [| now injection H as <-].
    apply (css_loop_absent "color") in H; [exact H | | exact H0].
    intros name.
    destruct (map_css_property_name_cases name)
      as [[_ ->] | [[_ ->] | (Hc & _ & ->)]];
      [discriminate | discriminate | exact Hc]. }
  assert (Hr : dict_get "color" pr_resolved = None).
  { unfold Index.resolve_tokens, App.resolve_tokens in Hres.
    rewrite index_resolve_loop_with, app_resolve_loop_with in Hres.
    destruct Hres as [H | H];
      now rewrite (resolve_loop_absent _ "color" props tokens [] _ Hprops H). }
  assert (Hc : Index.compare_key "color" figma_val pr_resolved
               = Ok [missing_property "color" figma_val]).
  { unfold Index.compare_key, dict_get_none. rewrite Hr. reflexivity. }
  repeat split; assumption.
Qed.

Lemma style_color_is_not_color_witness :
  dict_get "color" [("textColor", VDict [("value", VStr "red")])] = None.
Proof.
  apply (proj1 (proj2 (style_color_is_not_color
                         "<p style={{color: 'red'}}>"
                         [("textColor", VDict [("value", VStr "red")])] []
                         [("textColor", VDict [("value", VStr "red")])]
                         (VStr "red") eq_refl eq_refl
                         (or_introl eq_refl)))).
Defined.

(** ** Token lookup *)

(** X18: resolving against a dictionary that has [s] as a key.  A raw
    string [s] becomes the descriptor with token [s], value [s] and the
    dictionary's entry as [resolved], without any attempt to read it as a
    length; a descriptor without a [token] field whose value is [s] gets the
    entry as [resolved] and [s] as [token], in [src/app.py] always and in
    [src/index.py] whenever its resolver returns. *)
Theorem resolve_token_lookup (p tokens : dict) (s : string) (t : value) :
  dict_get s tokens = Some t ->
  (Index.resolve_prop (VStr s) tokens
   = Ok [("token", VStr s); ("value", VStr s); ("resolved", t)]
   /\ App.resolve_prop (VStr s) tokens
      = Ok [("token", VStr s); ("value", VStr s); ("resolved", t)])
  /\ (dict_get "token" p = None ->
      dict_get "value" p = Some (VStr s) ->
      (exists d,
         App.resolve_prop (VDict p) tokens = Ok d
         /\ dict_get "resolved" d = Some t
         /\ dict_get "token" d = Some (VStr s))
      /\ (forall d,
            Index.resolve_prop (VDict p) tokens = Ok d ->
            dict_get "resolved" d = Some t
            /\ dict_get "token" d = Some (VStr s))).
Proof.
  intros Ht. split.
  - unfold Index.resolve_prop, App.resolve_prop, dict_mem, dict_at.
    rewrite Ht. cbn [bind]. split; reflexivity.
  - intros Hnt Hv.
    assert (Hd : dict_get "resolved"
                   (dict_set "token" (VStr s) (dict_set "resolved" t p))
                 = Some t
                 /\ dict_get "token"
                      (dict_set "token" (VStr s) (dict_set "resolved" t p))
                    = Some (VStr s)).
    { split; [| apply dict_get_set_same].
      rewrite dict_get_set_other by reflexivity. apply dict_get_set_same. }
    split.
    + exists (dict_set "token" (VStr s) (dict_set "resolved" t p)).
      split; [| exact Hd].
      unfold App.resolve_prop, dict_mem, dict_get_none.
      rewrite Hnt, Hv. cbn [bind in_tokens tokens_at]. unfold dict_mem.
      rewrite Ht. reflexivity.
    + intros d H. unfold Index.resolve_prop, dict_mem, dict_get_none in H.
      rewrite Hnt, Hv in H. cbn [bind in_tokens tokens_at] in H.
      unfold dict_mem in H. rewrite Ht in H. cbn [bind] in H.
      destruct (endswith "px" s && negb (has_char " " s))%bool;
        [| injection H as <-; exact Hd].
      apply bind_ok in H. destruct H as (n & _ & H). injection H as <-.
      destruct Hd as [Hd1 Hd2].
      split; (rewrite dict_get_set_other; [assumption | reflexivity]).
Qed.

Lemma resolve_token_lookup_witness :
  Index.resolve_prop (VStr "brand-500") [("brand-500", VStr "#3366ff")]
  = Ok [("token", VStr "brand-500"); ("value", VStr "brand-500");
        ("resolved", VStr "#3366ff")].
Proof.
  apply (proj1 (proj1 (resolve_token_lookup [] [("brand-500", VStr "#3366ff")]
                         "brand-500" (VStr "#3366ff") eq_refl))).
Defined.

(** ** Percentages through the three stages *)

Lemma percent_string_facts (n : nat) :
  let s := str_of_nat n ++ "%" in
  search css_var_pattern s = None
  /\ endswith "%" s = true
  /\ endswith "px" s = false
  /\ String.eqb s "9999px" = false.
Proof.
  cbv zeta.
  assert (He : endswith "%" (str_of_nat n ++ "%") = true)
    by apply endswith_app.
  repeat split.
  - apply search_var_none. rewrite has_char_app.
    rewrite (all_chars_no_char is_digit "v" (str_of_nat n) eq_refl
               (str_of_uint_digits _)).
    reflexivity.
  - exact He.
  - now apply percent_not_px.
  - apply String.eqb_neq. intros E.
    apply percent_not_px in He. now rewrite E in He.
Qed.

(** X19: percentages are never compared.  A reference percentage given as
    a raw string against any implementation percentage, neither string being
    a token key: parsing, resolving and comparing give no issue, whatever
    the two numbers and whatever the key.  Both files. *)
Theorem percent_through_stages (key name : string) (a b : nat)
  (tokens : dict) :
  dict_get (str_of_nat a ++ "%") tokens = None ->
  dict_get (str_of_nat b ++ "%") tokens = None ->
  let fd := [("value", VStr (str_of_nat a ++ "%"))] in
  let pd := [("value", VStr (str_of_nat b ++ "%"));
             ("type", VStr "percentage")] in
  Index.parse_property_value (VStr (str_of_nat b ++ "%")) = Ok pd
  /\ Index.resolve_tokens [(key, VStr (str_of_nat a ++ "%"))] tokens
     = Ok [(key, VDict fd)]
  /\ Index.resolve_tokens [(key, VDict pd)] tokens = Ok [(key, VDict pd)]
  /\ Index.compare_components [(key, VDict fd)] [(key, VDict pd)] name
     = Ok []
  /\ App.parse_property_value (VStr (str_of_nat b ++ "%")) = Ok pd
  /\ App.resolve_tokens [(key, VStr (str_of_nat a ++ "%"))] tokens
     = Ok [(key, VDict fd)]
  /\ App.resolve_tokens [(key, VDict pd)] tokens = Ok [(key, VDict pd)]
  /\ App.compare_components [(key, VDict fd)] [(key, VDict pd)] name
     = Ok [].
Proof.
  intros Ha Hb fd pd.
  destruct (percent_string_facts a) as (_ & _ & Hxa & Hqa).
  destruct (percent_string_facts b) as (Hvb & Heb & Hxb & _).
  assert (Hparse : Index.parse_property_value (VStr (str_of_nat b ++ "%"))
                   = Ok pd).
  { unfold Index.parse_property_value, re_search. cbn [bind].
    now rewrite Hvb, Hxb, Heb. }
  assert (Hcmp : Index.compare_components [(key, VDict fd)] [(key, VDict pd)]
                   name = Ok []).
  { unfold Index.compare_components. cbn [Index.compare_loop].
    unfold Index.compare_key, dict_get_none, fd, pd. cbn [dict_get].
    rewrite String.eqb_refl. eval_eqb.
    cbn [truthy negb andb is_not_None py_eq]. rewrite Hqa.
    now destruct (String.eqb key "borderRadius"). }
  repeat split; try exact Hparse; try exact Hcmp.
  - unfold Index.resolve_tokens. cbn [Index.resolve_loop].
    unfold Index.resolve_prop, dict_mem. now rewrite Ha, Hxa.
  - unfold Index.resolve_tokens. cbn [Index.resolve_loop].
    unfold Index.resolve_prop, dict_mem, dict_get_none, pd.
    cbn [dict_get]. eval_eqb. cbn [in_tokens bind]. unfold dict_mem.
    rewrite Hb. cbn [bind]. now rewrite Hxb.
  - unfold App.resolve_tokens. cbn [App.resolve_loop].
    unfold App.resolve_prop, dict_mem. now rewrite Ha, Hxa.
  - unfold App.resolve_tokens. cbn [App.resolve_loop].
    unfold App.resolve_prop, dict_mem, dict_get_none, pd.
    cbn [dict_get]. eval_eqb. cbn [in_tokens bind]. unfold dict_mem.
    now rewrite Hb.
Qed.

Lemma percent_through_stages_witness :
  Index.compare_components
    [("width", VDict [("value", VStr "50%")])]
    [("width", VDict [("value", VStr "75%"); ("type", VStr "percentage")])]
    "card"
  = Ok [].
Proof.
  apply (proj1 (proj2 (proj2 (proj2
           (percent_through_stages "width" "card" 50 75 [] eq_refl eq_refl))))).
Defined.
